(** * A task store persisted to a JSON file: embedding of [tasks.py]

    The module [tasks.py] keeps a list of tasks in a JSON file and offers
    creation, lookup, deletion, status transitions, field updates and a
    filter/sort query.  Every operation loads the whole file, works on the
    list in memory and, when it changed something, writes the whole list
    back.

    Modelling choices.
    - Python integers are [Z]; strings are [string] (bytes, compared
      lexicographically as Python compares code points); [None] is the
      [None] of an [option].
    - A JSON record of the file is a [task_data]: each key is absent, null or
      holds a value of the expected type.
    - The outside world is a [world]: the content of the backing file, the
      reading of the clock ([datetime.now()] rendered with minute
      precision), the lines printed so far and the number of times the file
      was written.  Writes to the file succeed in [save_tasks] and in the
      operations built on it; the write that fails, and what each
      operation then does, is in [try_save] and the operations after it.
    - A raised exception is the [Raise] of [result]. *)

From Stdlib Require Import ZArith List String Ascii Bool Lia Sorting.Sorted
  Sorting.Permutation.
Import ListNotations.
Local Open Scope string_scope.
Local Open Scope list_scope.
Local Open Scope Z_scope.

(** ** Python values and exceptions *)

Inductive exn : Type :=
| KeyError
| TypeError
| AttributeError
| ValueError.

Inductive result (A : Type) : Type :=
| Ok (a : A)
| Raise (e : exn).

Arguments Ok {A} a.
Arguments Raise {A} e.

Definition bind {A B : Type} (r : result A) (k : A -> result B) : result B :=
  match r with
  | Ok a => k a
  | Raise e => Raise e
  end.

Notation "x <- r ;; k" := (bind r (fun x => k))
  (at level 61, r at next level, right associativity).

(** What a Python function hands back when the claims speak of a flag:
    [RNone] is falling off the end (or [return None]). *)
Inductive pyret : Type :=
| RNone
| RBool (b : bool).

(** Equality of two optional values, as [==] between a value and [None]. *)
Definition opt_eqb {A : Type} (eqb : A -> A -> bool) (x y : option A) : bool :=
  match x, y with
  | Some a, Some b => eqb a b
  | None, None => true
  | _, _ => false
  end.

(** Truthiness of a string: the empty string is falsy. *)
Definition truthy (s : string) : bool :=
  match s with
  | EmptyString => false
  | String _ _ => true
  end.

(** ** The data model *)

(** class Task: the eight instance attributes. *)
Record Task : Type := mkTask {
  id : option Z;
  title : option string;
  desc : option string;
  status : option string;
  tags : list string;
  created_at : option string;
  started_at : option string;
  finished_at : option string
}.

(** [Task.__init__(title, desc, tags)], at clock reading [now]. *)
Definition Task_init (ttl dsc : option string) (tgs : option (list string))
    (now : string) : Task :=
  {| id := None;
     title := ttl;
     desc := dsc;
     status := Some "todo";
     tags := match tgs with
             | Some (x :: l) => x :: l
             | _ => []
             end;
     created_at := Some now;
     started_at := None;
     finished_at := None |}.

Definition set_id (t : Task) (v : option Z) : Task :=
  {| id := v; title := title t; desc := desc t; status := status t;
     tags := tags t; created_at := created_at t; started_at := started_at t;
     finished_at := finished_at t |}.

Definition set_title (t : Task) (v : option string) : Task :=
  {| id := id t; title := v; desc := desc t; status := status t;
     tags := tags t; created_at := created_at t; started_at := started_at t;
     finished_at := finished_at t |}.

Definition set_desc (t : Task) (v : option string) : Task :=
  {| id := id t; title := title t; desc := v; status := status t;
     tags := tags t; created_at := created_at t; started_at := started_at t;
     finished_at := finished_at t |}.

Definition set_status (t : Task) (v : option string) : Task :=
  {| id := id t; title := title t; desc := desc t; status := v;
     tags := tags t; created_at := created_at t; started_at := started_at t;
     finished_at := finished_at t |}.

Definition set_created_at (t : Task) (v : option string) : Task :=
  {| id := id t; title := title t; desc := desc t; status := status t;
     tags := tags t; created_at := v; started_at := started_at t;
     finished_at := finished_at t |}.

Definition set_started_at (t : Task) (v : option string) : Task :=
  {| id := id t; title := title t; desc := desc t; status := status t;
     tags := tags t; created_at := created_at t; started_at := v;
     finished_at := finished_at t |}.

Definition set_finished_at (t : Task) (v : option string) : Task :=
  {| id := id t; title := title t; desc := desc t; status := status t;
     tags := tags t; created_at := created_at t; started_at := started_at t;
     finished_at := v |}.

(** ** The backing file *)

(** A key of a JSON record: absent, [null], or a value. *)
Inductive jfield (A : Type) : Type :=
| JAbsent
| JNull
| JVal (a : A).

Arguments JAbsent {A}.
Arguments JNull {A}.
Arguments JVal {A} a.

(** [d[key]] *)
Definition getitem {A : Type} (f : jfield A) : result (option A) :=
  match f with
  | JAbsent => Raise KeyError
  | JNull => Ok None
  | JVal a => Ok (Some a)
  end.

(** [d.get(key)] *)
Definition get {A : Type} (f : jfield A) : option A :=
  match f with
  | JVal a => Some a
  | _ => None
  end.

(** [d.get(key, default)] *)
Definition get_default {A : Type} (f : jfield A) (d : A) : option A :=
  match f with
  | JAbsent => Some d
  | JNull => None
  | JVal a => Some a
  end.

Record task_data : Type := mkData {
  d_id : jfield Z;
  d_title : jfield string;
  d_desc : jfield string;
  d_status : jfield string;
  d_tags : jfield (list string);
  d_created_at : jfield string;
  d_started_at : jfield string;
  d_finished_at : jfield string
}.

Inductive file_state : Type :=
| NoFile                            (* os.path.exists is false *)
| BadJson                           (* json.load raises JSONDecodeError *)
| Json (records : list task_data).

(** What the operations print. *)
Inductive message : Type :=
| MsgInvalidJson
| MsgLoadError (e : exn)
| MsgInvalidId
| MsgDeleted (task_id : Z)
| MsgNotFound (task_id : Z)
| MsgMalformed (task_id : Z)
| MsgUnexpected (e : exn).

Record world : Type := mkWorld {
  file : file_state;
  clock : string;
  stdout : list message;
  writes : nat
}.

Definition print (m : message) (w : world) : world :=
  {| file := file w; clock := clock w; stdout := stdout w ++ [m];
     writes := writes w |}.

Definition set_clock (now : string) (w : world) : world :=
  {| file := file w; clock := now; stdout := stdout w; writes := writes w |}.

(** ** Persistence layer *)

Definition of_option {A : Type} (o : option A) : jfield A :=
  match o with
  | Some a => JVal a
  | None => JNull
  end.

(** [vars(task)], which is [task.__dict__]: every attribute is a key. *)
Definition vars (t : Task) : task_data :=
  {| d_id := of_option (id t);
     d_title := of_option (title t);
     d_desc := of_option (desc t);
     d_status := of_option (status t);
     d_tags := JVal (tags t);
     d_created_at := of_option (created_at t);
     d_started_at := of_option (started_at t);
     d_finished_at := of_option (finished_at t) |}.

(** One turn of the loop of [load_tasks]. *)
Definition load_record (now : string) (d : task_data) : result Task :=
  ttl <- getitem (d_title d) ;;
  dsc <- getitem (d_desc d) ;;
  let t0 := Task_init ttl dsc (get (d_tags d)) now in
  let t1 := set_id t0 (get (d_id d)) in
  let t2 := set_status t1 (get_default (d_status d) "todo") in
  let t3 := set_created_at t2 (get (d_created_at d)) in
  let t4 := set_started_at t3 (get (d_started_at d)) in
  Ok (set_finished_at t4 (get (d_finished_at d))).

Fixpoint load_records (now : string) (ds : list task_data)
    : result (list Task) :=
  match ds with
  | [] => Ok []
  | d :: ds' =>
      t <- load_record now d ;;
      ts <- load_records now ds' ;;
      Ok (t :: ts)
  end.

Definition load_tasks (w : world) : list Task * world :=
  match file w with
  | NoFile => ([], w)
  | BadJson => ([], print MsgInvalidJson w)
  | Json ds =>
      match load_records (clock w) ds with
      | Ok ts => (ts, w)
      | Raise e => ([], print (MsgLoadError e) w)
      end
  end.

(** [save_tasks] when the write goes through: the file then holds the
    record of every task.  The write that fails is [try_save] below. *)
Definition save_tasks (tasks : list Task) (w : world) : world :=
  {| file := Json (map vars tasks); clock := clock w; stdout := stdout w;
     writes := S (writes w) |}.

(** ** Task store *)

(** [max(task.id for task in tasks)] on a non-empty list: the running
    maximum is compared with [>] against each further item, and comparing
    with [None] raises. *)
Fixpoint max_from (cur : option Z) (l : list (option Z)) : result (option Z) :=
  match l with
  | [] => Ok cur
  | x :: l' =>
      match cur, x with
      | Some c, Some v => max_from (Some (if v >? c then v else c)) l'
      | _, _ => Raise TypeError
      end
  end.

Definition py_max (l : list (option Z)) : result (option Z) :=
  match l with
  | [] => Raise ValueError
  | x :: l' => max_from x l'
  end.

(** [highest_id + 1] *)
Definition add_one (v : option Z) : result Z :=
  match v with
  | Some z => Ok (z + 1)
  | None => Raise TypeError
  end.

Definition new_task (ttl dsc : string) (tgs : list string) (w : world)
    : result world :=
  let (tasks, w1) := load_tasks w in
  highest_id <- match tasks with
                | [] => Ok (Some 0)
                | _ :: _ => py_max (map id tasks)
                end ;;
  let task := Task_init (Some ttl) (Some dsc) (Some tgs) (clock w1) in
  next <- add_one highest_id ;;
  Ok (save_tasks (tasks ++ [set_id task (Some next)]) w1).

Definition id_is (task_id : Z) (t : Task) : bool :=
  opt_eqb Z.eqb (id t) (Some task_id).

Definition view_task (task_id : Z) (w : world) : option task_data * world :=
  if task_id <=? 0 then (None, print MsgInvalidId w)
  else
    let (tasks, w1) := load_tasks w in
    (option_map vars (find (id_is task_id) tasks), w1).

(** The scan of [delete_task]: the position of the first task with the id.
    The task object found is then taken out by [tasks.remove], which
    compares by identity, so it takes out that very position. *)
Fixpoint find_index (task_id : Z) (tasks : list Task) : option nat :=
  match tasks with
  | [] => None
  | t :: rest =>
      if id_is task_id t then Some O
      else option_map S (find_index task_id rest)
  end.

Fixpoint remove_at (i : nat) (tasks : list Task) : list Task :=
  match tasks, i with
  | [], _ => []
  | _ :: rest, O => rest
  | t :: rest, S i' => t :: remove_at i' rest
  end.

Definition delete_task (task_id : Z) (w : world) : pyret * world :=
  let (tasks, w1) := load_tasks w in
  match find_index task_id tasks with
  | Some i =>
      (RNone, print (MsgDeleted task_id) (save_tasks (remove_at i tasks) w1))
  | None => (RNone, print (MsgNotFound task_id) w1)
  end.

(** The body of the [if]/[elif] of [update_status] on the task found. *)
Definition apply_action (action now : string) (t : Task) : Task :=
  if (action =? "start")%string then
    set_started_at (set_status t (Some "in_progress")) (Some now)
  else if (action =? "finish")%string then
    set_finished_at (set_status t (Some "done")) (Some now)
  else t.

(** The loop of [update_status]: the first task with the id is changed in
    place and the loop is left; [None] when the loop runs to its end. *)
Fixpoint update_first (task_id : Z) (action now : string) (tasks : list Task)
    : option (list Task) :=
  match tasks with
  | [] => None
  | t :: rest =>
      if id_is task_id t then Some (apply_action action now t :: rest)
      else option_map (cons t) (update_first task_id action now rest)
  end.

Definition update_status (task_id : Z) (action : string) (w : world)
    : pyret * world :=
  if task_id <=? 0 then (RNone, print MsgInvalidId w)
  else
    let (tasks, w1) := load_tasks w in
    match update_first task_id action (clock w1) tasks with
    | Some tasks' => (RBool true, save_tasks tasks' w1)
    | None => (RBool false, w1)
    end.

Definition opt_truthy (o : option string) : bool :=
  match o with
  | Some s => truthy s
  | None => false
  end.

Definition edit_fields (ttl dsc : option string) (t : Task) : Task :=
  let t1 := if opt_truthy ttl then set_title t ttl else t in
  if opt_truthy dsc then set_desc t1 dsc else t1.

Fixpoint edit_first (task_id : Z) (ttl dsc : option string)
    (tasks : list Task) : option (list Task) :=
  match tasks with
  | [] => None
  | t :: rest =>
      if id_is task_id t then Some (edit_fields ttl dsc t :: rest)
      else option_map (cons t) (edit_first task_id ttl dsc rest)
  end.

Definition update_task (task_id : Z) (ttl dsc : option string) (w : world)
    : result world :=
  let (tasks, w1) := load_tasks w in
  match edit_first task_id ttl dsc tasks with
  | Some tasks' => Ok (save_tasks tasks' w1)
  | None => Raise ValueError
  end.

(** *** The query *)

(** The options of [sort] that the docstring and the command line list. *)
Inductive sort_option : Type :=
| by_created_at
| by_started_at
| by_finished_at.

Definition getattr (t : Task) (s : sort_option) : option string :=
  match s with
  | by_created_at => created_at t
  | by_started_at => started_at t
  | by_finished_at => finished_at t
  end.

Definition sentinel : string := "0000-00-00 00:00".

Definition sort_key (s : sort_option) (t : Task) : string :=
  match getattr t s with
  | None => sentinel
  | Some value => value
  end.

(** [tasks.sort(key=sort_key)]: a stable sort that compares keys with [<].
    The stable sorted arrangement of a list is unique, so insertion from
    the right stands for the algorithm of the interpreter. *)
Fixpoint insert_task (key : Task -> string) (x : Task) (l : list Task)
    : list Task :=
  match l with
  | [] => [x]
  | y :: l' =>
      if String.ltb (key y) (key x) then y :: insert_task key x l'
      else x :: y :: l'
  end.

Fixpoint sort_tasks (key : Task -> string) (l : list Task) : list Task :=
  match l with
  | [] => []
  | x :: l' => insert_task key x (sort_tasks key l')
  end.

(** [needle in hay] on strings. *)
Fixpoint contains (needle hay : string) : bool :=
  String.prefix needle hay ||
  match hay with
  | EmptyString => false
  | String _ hay' => contains needle hay'
  end.

(** [search in field]: [None] is not iterable. *)
Definition py_in (search : string) (field : option string) : result bool :=
  match field with
  | Some s => Ok (contains search s)
  | None => Raise TypeError
  end.

Definition search_matches (search : string) (t : Task) : result bool :=
  in_title <- py_in search (title t) ;;
  if in_title then Ok true else py_in search (desc t).

Fixpoint filter_r (p : Task -> result bool) (l : list Task)
    : result (list Task) :=
  match l with
  | [] => Ok []
  | t :: l' =>
      keep <- p t ;;
      rest <- filter_r p l' ;;
      Ok (if keep then t :: rest else rest)
  end.

Definition status_is (s : string) (t : Task) : bool :=
  opt_eqb String.eqb (status t) (Some s).

Definition has_tag (tag : string) (t : Task) : bool :=
  existsb (String.eqb tag) (tags t).

(** The four blocks of [list_tasks], each skipped when its argument is
    [None] or empty. *)
Definition filter_status (st : option string) (tasks : list Task)
    : list Task :=
  if opt_truthy st then
    match st with
    | Some s => filter (status_is s) tasks
    | None => tasks
    end
  else tasks.

Definition filter_tag (tag : option string) (tasks : list Task)
    : list Task :=
  if opt_truthy tag then
    match tag with
    | Some g => filter (has_tag g) tasks
    | None => tasks
    end
  else tasks.

Definition filter_search (search : option string) (tasks : list Task)
    : result (list Task) :=
  if opt_truthy search then
    match search with
    | Some q => filter_r (search_matches q) tasks
    | None => Ok tasks
    end
  else Ok tasks.

Definition sort_stage (sort : option sort_option) (tasks : list Task)
    : list Task :=
  match sort with
  | Some s => sort_tasks (sort_key s) tasks
  | None => tasks
  end.

Definition list_tasks (st tag : option string) (sort : option sort_option)
    (search : option string) (w : world)
    : result (list task_data) * world :=
  let (tasks, w1) := load_tasks w in
  (found <- filter_search search (filter_tag tag (filter_status st tasks)) ;;
   Ok (map vars (sort_stage sort found)),
   w1).

(** ** Sequences of operations *)

Inductive op : Type :=
| Create (now ttl dsc : string) (tgs : list string)
| Delete (task_id : Z).

Definition step (o : op) (w : world) : result world :=
  match o with
  | Create now ttl dsc tgs => new_task ttl dsc tgs (set_clock now w)
  | Delete task_id => Ok (snd (delete_task task_id w))
  end.

Fixpoint run (ops : list op) (w : world) : result world :=
  match ops with
  | [] => Ok w
  | o :: ops' => w' <- step o w ;; run ops' w'
  end.

(** The collection an operation would see, and its ids in order. *)
Definition collection (w : world) : list Task := fst (load_tasks w).

Definition ids (w : world) : list (option Z) := map id (collection w).

Definition is_create (o : op) : bool :=
  match o with
  | Create _ _ _ _ => true
  | Delete _ => false
  end.

(** The ids given out by the creations of a run, in order: each is the id of
    the task the creation appended. *)
Fixpoint assigned (ops : list op) (w : world) : list (option Z) :=
  match ops with
  | [] => []
  | o :: ops' =>
      match step o w with
      | Ok w' =>
          (if is_create o then [last (ids w') None] else [])
            ++ assigned ops' w'
      | Raise _ => []
      end
  end.

Definition empty_store (now : string) : world :=
  {| file := NoFile; clock := now; stdout := []; writes := 0 |}.

(** ** Predicates of the claims *)

(** The task a creation appends, once it has its id. *)
Definition created (ttl dsc : string) (tgs : list string) (now : string)
    (n : Z) : Task :=
  set_id (Task_init (Some ttl) (Some dsc) (Some tgs) now) (Some n).

Definition after_load (w : world) : world := snd (load_tasks w).

(** All ids are integers above [lo] and each is above the one before. *)
Fixpoint increasing_from (lo : Z) (l : list (option Z)) : bool :=
  match l with
  | [] => true
  | Some z :: l' => (lo <? z) && increasing_from z l'
  | None :: _ => false
  end.

(** The ids are [k], [k+1], [k+2], ... without a gap. *)
Fixpoint consecutive_from (k : Z) (l : list (option Z)) : bool :=
  match l with
  | [] => true
  | x :: l' => opt_eqb Z.eqb x (Some k) && consecutive_from (k + 1) l'
  end.

(** The order the sort establishes between two tasks. *)
Definition le_by (key : Task -> string) (a b : Task) : Prop :=
  String.leb (key a) (key b) = true.

Definition key_le (s : sort_option) : Task -> Task -> Prop :=
  le_by (sort_key s).

(** A timestamp as [strftime('%Y-%m-%d %H:%M')] prints it. *)
Definition digit_val (c : ascii) : option N :=
  let n := N_of_ascii c in
  if ((48 <=? n) && (n <=? 57))%N then Some (n - 48)%N else None.

Definition is_digit (c : ascii) : bool :=
  match digit_val c with
  | Some _ => true
  | None => false
  end.

Definition two_digits (lo hi : N) (a b : ascii) : bool :=
  match digit_val a, digit_val b with
  | Some x, Some y => ((lo <=? 10 * x + y) && (10 * x + y <=? hi))%N
  | _, _ => false
  end.

Definition is_timestamp (s : string) : bool :=
  match s with
  | String y1 (String y2 (String y3 (String y4 (String dash1
    (String m1 (String m2 (String dash2
    (String d1 (String d2 (String space
    (String h1 (String h2 (String colon
    (String n1 (String n2 EmptyString))))))))))))))) =>
      is_digit y1 && is_digit y2 && is_digit y3 && is_digit y4 &&
      Ascii.eqb dash1 "-" && two_digits 1 12 m1 m2 &&
      Ascii.eqb dash2 "-" && two_digits 1 31 d1 d2 &&
      Ascii.eqb space " " && two_digits 0 23 h1 h2 &&
      Ascii.eqb colon ":" && two_digits 0 59 n1 n2
  | _ => false
  end.

(** ** Concrete stores *)

Definition t0900 : string := "2024-05-01 09:00".
Definition t0905 : string := "2024-05-01 09:05".
Definition t0910 : string := "2024-05-01 09:10".

Definition milk : op := Create t0900 "Buy milk" "2% milk" ["errand"].
Definition report : op := Create t0905 "Write report" "Q3 summary" ["work"].
Definition laundry : op := Create t0910 "Laundry" "" [].

Definition two_tasks : world :=
  match run [milk; report] (empty_store t0900) with
  | Ok w => w
  | Raise _ => empty_store t0900
  end.

Definition t0915 : string := "2024-05-01 09:15".

Definition milk_started : world :=
  snd (update_status 1 "start" (set_clock t0905 two_tasks)).

Definition milk_done : world :=
  snd (update_status 1 "finish" (set_clock t0910 milk_started)).

(** A file written by hand: one record with the two required keys only. *)
Definition bare_record : task_data :=
  {| d_id := JAbsent; d_title := JVal "Call back"; d_desc := JVal "";
     d_status := JAbsent; d_tags := JAbsent; d_created_at := JAbsent;
     d_started_at := JAbsent; d_finished_at := JAbsent |}.

Definition hand_written : world :=
  {| file := Json [bare_record]; clock := t0900; stdout := []; writes := 0 |}.

(** ** The dispatch of [main] *)

(** The parsed command line: the sub-command and its arguments, as
    [parser.parse_args()] hands them to the chain of branches that ends
    [main].  The banner, the help text and the prompt shown when no
    sub-command is given are left out. *)
Inductive command : Type :=
| CmdNewTask (ttl dsc : string) (tgs : list string)
| CmdTask (task_id : Z) (action : string)
| CmdDelete (task_id : Z)
| CmdUpdateTask (task_id : Z) (ttl dsc : option string)
| CmdTasks (st tag : option string) (sort : option sort_option)
    (search : option string).

(** What [main] itself prints, after whatever the operation printed. *)
Inductive shown : Type :=
| ShownRecord (d : option task_data)     (* print(json.dumps(record)) *)
| ShownError (e : exn).                  (* print(e) *)

(** The branches of [main].  Only [update_task] is called under a [try],
    and only [ValueError] is caught there; when it is raised the operation
    has loaded the file and nothing more. *)
Definition main_dispatch (c : command) (w : world)
    : result (world * list shown) :=
  match c with
  | CmdNewTask ttl dsc tgs =>
      w' <- new_task ttl dsc tgs w ;;
      Ok (w', [])
  | CmdTask task_id action =>
      if (action =? "view")%string then
        let (r, w') := view_task task_id w in
        Ok (w', [ShownRecord r])
      else
        Ok (snd (update_status task_id action w), [])
  | CmdDelete task_id =>
      Ok (snd (delete_task task_id w), [])
  | CmdUpdateTask task_id ttl dsc =>
      match update_task task_id ttl dsc w with
      | Ok w' => Ok (w', [])
      | Raise ValueError => Ok (after_load w, [ShownError ValueError])
      | Raise e => Raise e
      end
  | CmdTasks st tag sort search =>
      let (r, w') := list_tasks st tag sort search w in
      records <- r ;;
      Ok (w', map (fun d => ShownRecord (Some d)) records)
  end.

(** ** Further predicates *)

(** Title and description are strings, not null. *)
Definition texts_present (t : Task) : bool :=
  match title t, desc t with
  | Some _, Some _ => true
  | _, _ => false
  end.

(** A collection as the program itself builds it: positive increasing ids
    and no null title or description. *)
Definition sound (l : list Task) : bool :=
  increasing_from 0 (map id l) && forallb texts_present l.

(** The record keeps the two keys that [load_tasks] reads with [d[key]]. *)
Definition has_required_keys (d : task_data) : bool :=
  match d_title d, d_desc d with
  | JAbsent, _ => false
  | _, JAbsent => false
  | _, _ => true
  end.

(** What the loop of [load_tasks] makes of a record that has both keys. *)
Definition decoded (d : task_data) : Task :=
  {| id := get (d_id d);
     title := get (d_title d);
     desc := get (d_desc d);
     status := get_default (d_status d) "todo";
     tags := match get (d_tags d) with
             | Some l => l
             | None => []
             end;
     created_at := get (d_created_at d);
     started_at := get (d_started_at d);
     finished_at := get (d_finished_at d) |}.

(** The test of the search filter on a task whose texts are strings. *)
Definition text_matches (q : string) (t : Task) : bool :=
  match title t, desc t with
  | Some a, Some b => contains q a || contains q b
  | _, _ => false
  end.

(** ** Further concrete stores *)

Definition corrupt : world :=
  {| file := BadJson; clock := t0900; stdout := []; writes := 0 |}.

(** A file written by hand whose second record has no title. *)
Definition untitled_record : task_data :=
  {| d_id := JVal 2; d_title := JAbsent; d_desc := JVal "no title";
     d_status := JVal "todo"; d_tags := JVal []; d_created_at := JVal t0900;
     d_started_at := JNull; d_finished_at := JNull |}.

Definition half_readable : world :=
  {| file := Json [vars (created "Buy milk" "2% milk" ["errand"] t0900 1);
                   untitled_record];
     clock := t0905; stdout := []; writes := 0 |}.

(** A file written by hand whose record has a null title. *)
Definition null_title_record : task_data :=
  {| d_id := JVal 1; d_title := JNull; d_desc := JVal "milk";
     d_status := JVal "todo"; d_tags := JVal []; d_created_at := JVal t0900;
     d_started_at := JNull; d_finished_at := JNull |}.

Definition null_title : world :=
  {| file := Json [null_title_record]; clock := t0905; stdout := [];
     writes := 0 |}.

(** A file written by hand with ids out of order, repeated and below 1. *)
Definition numbered (n : Z) : task_data :=
  {| d_id := JVal n; d_title := JVal "t"; d_desc := JVal "d";
     d_status := JVal "todo"; d_tags := JVal []; d_created_at := JVal t0900;
     d_started_at := JNull; d_finished_at := JNull |}.

Definition unordered : world :=
  {| file := Json [numbered 7; numbered (-3); numbered 7; numbered 4];
     clock := t0905; stdout := []; writes := 0 |}.

(** ** Writes that fail *)

(** What the [try] of [save_tasks] comes to.  [Written]: [open] and
    [json.dump] went through; the effect is [save_tasks].  [Failed remains]:
    one of them raised (no permission, a full disk, a value that
    [json.dump] cannot print), and [remains] is what the attempt left in the
    file.  The first handler after the [try] then names
    [json.JSONEncodeError]; the module [json] has no such attribute, so
    looking it up raises [AttributeError], and that is the exception that
    leaves [save_tasks]: none of its three handlers runs. *)
Inductive write_outcome : Type :=
| Written
| Failed (remains : file_state).

Definition failed_write (remains : file_state) (w : world) : world :=
  {| file := remains; clock := clock w; stdout := stdout w;
     writes := writes w |}.

Definition try_save (o : write_outcome) (tasks : list Task) (w : world)
    : result world :=
  match o with
  | Written => Ok (save_tasks tasks w)
  | Failed _ => Raise AttributeError
  end.

(** The four operations that save, each with the outcome of its one
    write.  Only [update_status] calls [save_tasks] under a [try]; its
    handler for [AttributeError] prints the line about malformed task data
    and returns [False]. *)
Definition new_task_io (o : write_outcome) (ttl dsc : string)
    (tgs : list string) (w : world) : result world :=
  let (tasks, w1) := load_tasks w in
  highest_id <- match tasks with
                | [] => Ok (Some 0)
                | _ :: _ => py_max (map id tasks)
                end ;;
  let task := Task_init (Some ttl) (Some dsc) (Some tgs) (clock w1) in
  next <- add_one highest_id ;;
  try_save o (tasks ++ [set_id task (Some next)]) w1.

Definition delete_task_io (o : write_outcome) (task_id : Z) (w : world)
    : result (pyret * world) :=
  let (tasks, w1) := load_tasks w in
  match find_index task_id tasks with
  | Some i =>
      w2 <- try_save o (remove_at i tasks) w1 ;;
      Ok (RNone, print (MsgDeleted task_id) w2)
  | None => Ok (RNone, print (MsgNotFound task_id) w1)
  end.

Definition update_status_io (o : write_outcome) (task_id : Z)
    (action : string) (w : world) : pyret * world :=
  if task_id <=? 0 then (RNone, print MsgInvalidId w)
  else
    let (tasks, w1) := load_tasks w in
    match update_first task_id action (clock w1) tasks with
    | Some tasks' =>
        match o with
        | Written => (RBool true, save_tasks tasks' w1)
        | Failed remains =>
            (RBool false, print (MsgMalformed task_id) (failed_write remains w1))
        end
    | None => (RBool false, w1)
    end.

Definition update_task_io (o : write_outcome) (task_id : Z)
    (ttl dsc : option string) (w : world) : result world :=
  let (tasks, w1) := load_tasks w in
  match edit_first task_id ttl dsc tasks with
  | Some tasks' => try_save o tasks' w1
  | None => Raise ValueError
  end.

(** The branches of [main], with the outcome of the write of the run. *)
Definition main_dispatch_io (o : write_outcome) (c : command) (w : world)
    : result (world * list shown) :=
  match c with
  | CmdNewTask ttl dsc tgs =>
      w' <- new_task_io o ttl dsc tgs w ;;
      Ok (w', [])
  | CmdTask task_id action =>
      if (action =? "view")%string then
        let (r, w') := view_task task_id w in
        Ok (w', [ShownRecord r])
      else
        Ok (snd (update_status_io o task_id action w), [])
  | CmdDelete task_id =>
      r <- delete_task_io o task_id w ;;
      Ok (snd r, [])
  | CmdUpdateTask task_id ttl dsc =>
      match update_task_io o task_id ttl dsc w with
      | Ok w' => Ok (w', [])
      | Raise ValueError => Ok (after_load w, [ShownError ValueError])
      | Raise e => Raise e
      end
  | CmdTasks st tag sort search =>
      let (r, w') := list_tasks st tag sort search w in
      records <- r ;;
      Ok (w', map (fun d => ShownRecord (Some d)) records)
  end.

(** One run of the program after another: each run has its clock reading,
    its command line and the outcome of its write.  The first run that
    ends in a traceback ends the session. *)
Record run_of_main : Type := mkRun {
  run_clock : string;
  run_command : command;
  run_write : write_outcome
}.

Definition write_succeeds (r : run_of_main) : bool :=
  match run_write r with
  | Written => true
  | Failed _ => false
  end.

Fixpoint session (runs : list run_of_main) (w : world)
    : result (world * list shown) :=
  match runs with
  | [] => Ok (w, [])
  | r :: runs' =>
      first <- main_dispatch_io (run_write r) (run_command r)
                 (set_clock (run_clock r) w) ;;
      rest <- session runs' (fst first) ;;
      Ok (fst rest, snd first ++ snd rest)
  end.

(** * Properties *)

(** ** Runs on the concrete stores *)

Example two_tasks_ids : ids two_tasks = [Some 1; Some 2].
Proof. reflexivity. Qed.

Example timestamps_recognised :
  is_timestamp t0900 = true /\ is_timestamp sentinel = false /\
  is_timestamp "2024-13-01 09:00" = false.
Proof. vm_compute. repeat split. Qed.

Example end_to_end :
  let (r, w1) := update_status 1 "start" (set_clock t0910 two_tasks) in
  r = RBool true /\
  map status (collection w1) = [Some "in_progress"; Some "todo"] /\
  map started_at (collection w1) = [Some t0910; None] /\
  map d_title
    (match fst (list_tasks None (Some "work") None None w1) with
     | Ok l => l
     | Raise _ => []
     end) = [JVal "Write report"] /\
  ids (snd (delete_task 1 w1)) = [Some 2].
Proof. vm_compute. repeat split. Qed.

Example sorted_by_started_at :
  fst (list_tasks None None (Some by_started_at) None milk_started) =
    Ok (map vars
          [created "Write report" "Q3 summary" ["work"] t0905 2;
           set_started_at
             (set_status (created "Buy milk" "2% milk" ["errand"] t0900 1)
                (Some "in_progress"))
             (Some t0905)]).
Proof. reflexivity. Qed.

Example search_finds_substring :
  fst (list_tasks None None None (Some "milk") two_tasks) =
    Ok [vars (created "Buy milk" "2% milk" ["errand"] t0900 1)].
Proof. reflexivity. Qed.

Example update_task_not_found :
  update_task 7 (Some "New title") None two_tasks = Raise ValueError.
Proof. reflexivity. Qed.

Example hand_written_loads :
  map id (collection hand_written) = [None] /\
  map status (collection hand_written) = [Some "todo"].
Proof. vm_compute. split; reflexivity. Qed.

(** ** The persistence layer *)

Section Persistence.

Lemma load_record_vars (now : string) (t : Task) :
  load_record now (vars t) = Ok t.
Proof.
  destruct t as [i ti de st tg cr sa fi].
  destruct i, ti, de, st, tg, cr, sa, fi; reflexivity.
Qed.

Lemma load_records_vars (now : string) (l : list Task) :
  load_records now (map vars l) = Ok l.
Proof.
  induction l as [|t l IH]; simpl; [reflexivity|].
  rewrite load_record_vars; simpl. rewrite IH. reflexivity.
Qed.

(** The clock read by the constructor is overwritten by the record. *)
Lemma load_record_clock (now now' : string) (d : task_data) :
  load_record now d = load_record now' d.
Proof.
  unfold load_record.
  destruct (getitem (d_title d)); simpl; [|reflexivity].
  destruct (getitem (d_desc d)); reflexivity.
Qed.

Lemma load_records_clock (now now' : string) (ds : list task_data) :
  load_records now ds = load_records now' ds.
Proof.
  induction ds as [|d ds IH]; simpl; [reflexivity|].
  rewrite (load_record_clock now now'), IH. reflexivity.
Qed.

Lemma collection_file (w w' : world) :
  file w = file w' -> collection w = collection w'.
Proof.
  unfold collection, load_tasks. intros <-.
  destruct (file w) as [| |ds]; try reflexivity.
  rewrite (load_records_clock (clock w) (clock w')).
  destruct (load_records (clock w') ds); reflexivity.
Qed.

Lemma load_tasks_eta (w : world) :
  load_tasks w = (collection w, after_load w).
Proof. unfold collection, after_load. destruct (load_tasks w); reflexivity. Qed.

Lemma after_load_file (w : world) : file (after_load w) = file w.
Proof.
  unfold after_load, load_tasks.
  destruct (file w) as [| |ds] eqn:E; simpl; auto.
  destruct (load_records (clock w) ds); simpl; auto.
Qed.

Lemma after_load_clock (w : world) : clock (after_load w) = clock w.
Proof.
  unfold after_load, load_tasks.
  destruct (file w) as [| |ds]; simpl; auto.
  destruct (load_records (clock w) ds); simpl; auto.
Qed.

Lemma after_load_writes (w : world) : writes (after_load w) = writes w.
Proof.
  unfold after_load, load_tasks.
  destruct (file w) as [| |ds]; simpl; auto.
  destruct (load_records (clock w) ds); simpl; auto.
Qed.

Lemma collection_after_load (w : world) :
  collection (after_load w) = collection w.
Proof. apply collection_file, after_load_file. Qed.

(** What was saved is what the next load returns, without a diagnostic. *)
Lemma load_save (l : list Task) (w : world) :
  load_tasks (save_tasks l w) = (l, save_tasks l w).
Proof.
  unfold load_tasks; simpl. rewrite load_records_vars. reflexivity.
Qed.

Lemma collection_save (l : list Task) (w : world) :
  collection (save_tasks l w) = l.
Proof. unfold collection. rewrite load_save. reflexivity. Qed.

Lemma collection_print (m : message) (w : world) :
  collection (print m w) = collection w.
Proof. apply collection_file. reflexivity. Qed.

Lemma collection_set_clock (now : string) (w : world) :
  collection (set_clock now w) = collection w.
Proof. apply collection_file. reflexivity. Qed.

End Persistence.

Create Rewrite HintDb store.

#[local] Hint Rewrite collection_save collection_print collection_set_clock
  collection_after_load after_load_file after_load_clock after_load_writes
  : store.

(** ** Identifiers *)

Section Identifiers.

Lemma id_is_true (task_id : Z) (t : Task) :
  id_is task_id t = true <-> id t = Some task_id.
Proof.
  unfold id_is, opt_eqb. destruct (id t) as [z|].
  - rewrite Z.eqb_eq. split; congruence.
  - split; discriminate.
Qed.

Lemma id_is_false (task_id : Z) (t : Task) :
  id_is task_id t = false <-> id t <> Some task_id.
Proof.
  rewrite <- id_is_true. destruct (id_is task_id t); split; congruence.
Qed.

Lemma increasing_weaken (l : list (option Z)) (lo lo' : Z) :
  lo' <= lo -> increasing_from lo l = true -> increasing_from lo' l = true.
Proof.
  destruct l as [|[z|] l]; simpl; auto.
  intros Hle H. apply andb_true_iff in H as [H1 H2].
  apply Z.ltb_lt in H1. apply andb_true_iff. split; [|exact H2].
  apply Z.ltb_lt. lia.
Qed.

Lemma increasing_bound (l : list (option Z)) (lo z : Z) :
  increasing_from lo l = true -> In (Some z) l -> lo < z.
Proof.
  revert lo. induction l as [|[y|] l IH]; simpl; intros lo H Hin.
  - contradiction.
  - apply andb_true_iff in H as [H1 H2]. apply Z.ltb_lt in H1.
    destruct Hin as [E|Hin]; [injection E as ->; exact H1|].
    specialize (IH _ H2 Hin). lia.
  - discriminate.
Qed.

Lemma increasing_no_null (l : list (option Z)) (lo : Z) :
  increasing_from lo l = true -> ~ In None l.
Proof.
  revert lo. induction l as [|[y|] l IH]; simpl; intros lo H Hin.
  - contradiction.
  - apply andb_true_iff in H as [_ H2].
    destruct Hin as [E|Hin]; [discriminate|]. exact (IH _ H2 Hin).
  - discriminate.
Qed.

Lemma increasing_NoDup (l : list (option Z)) (lo : Z) :
  increasing_from lo l = true -> NoDup l.
Proof.
  revert lo. induction l as [|[y|] l IH]; simpl; intros lo H.
  - constructor.
  - apply andb_true_iff in H as [_ H2]. constructor; [|exact (IH _ H2)].
    intros Hin. pose proof (increasing_bound _ _ _ H2 Hin). lia.
  - discriminate.
Qed.

(** On an increasing list the running maximum ends at the last id, and
    one more than it extends the list. *)
Lemma max_from_increasing (l : list (option Z)) (c : Z) :
  increasing_from c l = true ->
  exists m,
    max_from (Some c) l = Ok (Some m) /\
    c <= m /\
    (m = c \/ In (Some m) l) /\
    (forall z, In (Some z) l -> z <= m) /\
    (forall lo, lo < c ->
       increasing_from lo (Some c :: l ++ [Some (m + 1)]) = true).
Proof.
  revert c. induction l as [|[y|] l IH]; simpl; intros c H.
  - exists c. split; [reflexivity|]. split; [lia|].
    split; [left; reflexivity|]. split; [intros z []|].
    intros lo Hlo. rewrite andb_true_r.
    apply andb_true_iff; split; apply Z.ltb_lt; lia.
  - apply andb_true_iff in H as [H1 H2]. apply Z.ltb_lt in H1.
    replace (y >? c) with true by (symmetry; apply Z.gtb_lt; lia).
    destruct (IH _ H2) as (m & Hm & Hle & Hin & Hall & Hext).
    exists m. repeat split.
    + exact Hm.
    + lia.
    + destruct Hin as [->|Hin]; auto.
    + intros z [E|Hz]; [injection E as <-; exact Hle | exact (Hall _ Hz)].
    + intros lo Hlo. apply andb_true_iff; split; [apply Z.ltb_lt; lia|].
      apply (Hext c H1).
  - discriminate.
Qed.

Lemma increasing_remove_at (tasks : list Task) (i : nat) (lo : Z) :
  increasing_from lo (map id tasks) = true ->
  increasing_from lo (map id (remove_at i tasks)) = true.
Proof.
  revert i lo. induction tasks as [|t tasks IH]; intros i lo; simpl.
  - destruct i; auto.
  - destruct (id t) as [z|] eqn:E; [|discriminate].
    intros H. apply andb_true_iff in H as [H1 H2]. apply Z.ltb_lt in H1.
    destruct i as [|i]; simpl.
    + apply increasing_weaken with (lo := z); [lia | exact H2].
    + rewrite E. apply andb_true_iff; split; [apply Z.ltb_lt; lia|].
      apply IH, H2.
Qed.

Lemma consecutive_increasing (l : list (option Z)) (k : Z) :
  consecutive_from k l = true -> increasing_from (k - 1) l = true.
Proof.
  revert k. induction l as [|x l IH]; simpl; intros k H; [reflexivity|].
  apply andb_true_iff in H as [H1 H2].
  destruct x as [z|]; [|discriminate]. simpl in H1.
  apply Z.eqb_eq in H1; subst z.
  apply andb_true_iff; split; [apply Z.ltb_lt; lia|].
  specialize (IH _ H2). replace (k + 1 - 1) with k in IH by lia. exact IH.
Qed.

Lemma consecutive_snoc (l : list (option Z)) (k : Z) :
  consecutive_from k l = true ->
  consecutive_from k (l ++ [Some (k + Z.of_nat (List.length l))]) = true.
Proof.
  revert k. induction l as [|x l IH]; intros k H.
  - simpl. replace (k + 0) with k by lia. rewrite Z.eqb_refl. reflexivity.
  - simpl in H. apply andb_true_iff in H as [H1 H2].
    cbn [app consecutive_from List.length]. rewrite H1; simpl.
    specialize (IH _ H2).
    replace (k + Z.pos (Pos.of_succ_nat (List.length l)))
      with (k + 1 + Z.of_nat (List.length l)) by lia.
    exact IH.
Qed.

Lemma consecutive_members (l : list (option Z)) (k z : Z) :
  consecutive_from k l = true ->
  In (Some z) l -> k <= z < k + Z.of_nat (List.length l).
Proof.
  revert k. induction l as [|x l IH]; intros k H Hin; [contradiction|].
  simpl in H. apply andb_true_iff in H as [H1 H2].
  destruct x as [y|]; [|discriminate]. simpl in H1.
  apply Z.eqb_eq in H1; subst y.
  cbn [List.length]. destruct Hin as [E|Hin].
  - injection E as <-. lia.
  - specialize (IH _ H2 Hin). lia.
Qed.

End Identifiers.

(** ** The operations on a loaded collection *)

Section Operations.

Lemma new_task_increasing (ttl dsc : string) (tgs : list string)
    (w : world) :
  increasing_from 0 (ids w) = true ->
  exists n,
    new_task ttl dsc tgs w =
      Ok (save_tasks (collection w ++ [created ttl dsc tgs (clock w) n])
            (after_load w)) /\
    (forall z, In (Some z) (ids w) -> z < n) /\
    (ids w = [] -> n = 1) /\
    (ids w <> [] -> last (ids w) None = Some (n - 1)) /\
    increasing_from 0 (ids w ++ [Some n]) = true.
Proof.
  unfold new_task, ids. rewrite load_tasks_eta, after_load_clock.
  destruct (collection w) as [|t l]; simpl.
  - intros _. exists 1. split; [reflexivity|]. split; [intros z []|].
    split; [reflexivity|]. split; [congruence|reflexivity].
  - destruct (id t) as [c|] eqn:E; [|discriminate].
    intros H. apply andb_true_iff in H as [H1 H2]. apply Z.ltb_lt in H1.
    destruct (max_from_increasing _ _ H2) as (m & Hm & Hle & Hin & Hall & Hext).
    rewrite Hm. simpl. exists (m + 1). split; [reflexivity|].
    split; [|split; [discriminate|split]].
    + intros z [Ez|Hz]; [injection Ez as <-; lia|].
      specialize (Hall _ Hz). lia.
    + intros _. replace (m + 1 - 1) with m by lia.
      destruct Hin as [->|Hin].
      * destruct (map id l) as [|x l'] eqn:El; [reflexivity|].
        exfalso. simpl in H2. destruct x as [x|]; [|discriminate].
        apply andb_true_iff in H2 as [Hx _]. apply Z.ltb_lt in Hx.
        specialize (Hall x (or_introl eq_refl)). lia.
      * clear - Hin Hall H2. revert c H2 Hin Hall.
        induction (map id l) as [|x l' IH]; intros c H2 Hin Hall;
          [contradiction|].
        simpl in H2. destruct x as [x|]; [|discriminate].
        apply andb_true_iff in H2 as [Hx H2]. apply Z.ltb_lt in Hx.
        destruct l' as [|y l''].
        -- destruct Hin as [Ex|[]]. exact Ex.
        -- change (last (Some c :: Some x :: y :: l'') None)
             with (last (Some x :: y :: l'') None).
           apply (IH x H2).
           ++ destruct Hin as [Ex|Hin]; [|exact Hin].
              injection Ex as ->. exfalso.
              simpl in H2. destruct y as [y|]; [|discriminate].
              apply andb_true_iff in H2 as [Hy _]. apply Z.ltb_lt in Hy.
              specialize (Hall y (or_intror (or_introl eq_refl))). lia.
           ++ intros z Hz. apply Hall. right. exact Hz.
    + apply (Hext 0 H1).
Qed.

Lemma ids_after_create (l : list Task) (t : Task) (w : world) :
  ids (save_tasks (l ++ [t]) w) = map id l ++ [id t].
Proof. unfold ids. rewrite collection_save, map_app. reflexivity. Qed.

Lemma find_index_split (task_id : Z) (tasks : list Task) (i : nat) :
  find_index task_id tasks = Some i ->
  exists l1 t l2,
    tasks = l1 ++ t :: l2 /\ id t = Some task_id /\
    (forall u, In u l1 -> id u <> Some task_id) /\
    remove_at i tasks = l1 ++ l2.
Proof.
  revert i. induction tasks as [|t tasks IH]; simpl; intros i H;
    [discriminate|].
  destruct (id_is task_id t) eqn:E.
  - injection H as <-. exists [], t, tasks.
    apply id_is_true in E. repeat split; auto; intros u [].
  - destruct (find_index task_id tasks) as [j|]; [|discriminate].
    injection H as <-.
    destruct (IH j eq_refl) as (l1 & u & l2 & -> & Hid & Hfirst & Hrm).
    exists (t :: l1), u, l2. simpl. rewrite Hrm.
    repeat split; auto.
    intros v [<-|Hv]; [apply id_is_false, E | exact (Hfirst _ Hv)].
Qed.

Lemma find_index_none (task_id : Z) (tasks : list Task) :
  find_index task_id tasks = None <-> ~ In (Some task_id) (map id tasks).
Proof.
  induction tasks as [|t tasks IH]; simpl; [tauto|].
  destruct (id_is task_id t) eqn:E.
  - apply id_is_true in E. split; [discriminate|]. intros H. tauto.
  - apply id_is_false in E.
    destruct (find_index task_id tasks); simpl.
    + split; [discriminate|]. intros H.
      assert (F : Some n = None) by (apply IH; tauto). discriminate.
    + split; [|reflexivity]. intros _ [H|H]; [exact (E H)|].
      apply IH in H; auto.
Qed.

Lemma find_index_some (task_id : Z) (tasks : list Task) :
  In (Some task_id) (map id tasks) ->
  exists i, find_index task_id tasks = Some i.
Proof.
  intros Hin. destruct (find_index task_id tasks) as [i|] eqn:E;
    [eauto|]. apply find_index_none in E. contradiction.
Qed.

Lemma update_first_split (task_id : Z) (action now : string)
    (l1 l2 : list Task) (t : Task) :
  id t = Some task_id ->
  (forall u, In u l1 -> id u <> Some task_id) ->
  update_first task_id action now (l1 ++ t :: l2) =
    Some (l1 ++ apply_action action now t :: l2).
Proof.
  intros Hid. induction l1 as [|u l1 IH]; simpl; intros Hfirst.
  - apply id_is_true in Hid. rewrite Hid. reflexivity.
  - assert (E : id_is task_id u = false)
      by (apply id_is_false, Hfirst; left; reflexivity).
    rewrite E, IH; [reflexivity|]. intros v Hv. apply Hfirst. right; exact Hv.
Qed.

Lemma update_first_none (task_id : Z) (action now : string)
    (tasks : list Task) :
  ~ In (Some task_id) (map id tasks) ->
  update_first task_id action now tasks = None.
Proof.
  induction tasks as [|t tasks IH]; simpl; intros H; [reflexivity|].
  assert (E : id_is task_id t = false) by (apply id_is_false; tauto).
  rewrite E, IH; [reflexivity|tauto].
Qed.

Lemma update_first_other (task_id : Z) (action now : string)
    (tasks : list Task) :
  action <> "start" -> action <> "finish" ->
  In (Some task_id) (map id tasks) ->
  update_first task_id action now tasks = Some tasks.
Proof.
  intros Hs Hf. apply String.eqb_neq in Hs, Hf.
  induction tasks as [|t tasks IH]; simpl; intros Hin; [contradiction|].
  destruct (id_is task_id t) eqn:E.
  - unfold apply_action. rewrite Hs, Hf. reflexivity.
  - apply id_is_false in E. rewrite IH; [reflexivity|].
    destruct Hin as [H|H]; [contradiction|exact H].
Qed.

End Operations.

(** ** Creation and deletion, one step and many *)

Section Runs.

Lemma ids_set_clock (now : string) (w : world) :
  ids (set_clock now w) = ids w.
Proof. unfold ids. rewrite collection_set_clock. reflexivity. Qed.

Lemma step_create (now ttl dsc : string) (tgs : list string) (w : world) :
  increasing_from 0 (ids w) = true ->
  exists w' n,
    step (Create now ttl dsc tgs) w = Ok w' /\
    ids w' = ids w ++ [Some n] /\
    (forall z, In (Some z) (ids w) -> z < n) /\
    (ids w = [] -> n = 1) /\
    (ids w <> [] -> last (ids w) None = Some (n - 1)) /\
    increasing_from 0 (ids w') = true.
Proof.
  intros H. rewrite <- (ids_set_clock now) in H.
  destruct (new_task_increasing ttl dsc tgs _ H)
    as (n & Hn & Hlt & Hone & Hlast & Hinc).
  rewrite ids_set_clock in *.
  eexists _, n. split; [exact Hn|].
  assert (E : ids (save_tasks
               (collection (set_clock now w) ++
                  [created ttl dsc tgs (clock (set_clock now w)) n])
               (after_load (set_clock now w))) = ids w ++ [Some n]).
  { rewrite ids_after_create, collection_set_clock. reflexivity. }
  rewrite E. repeat split; assumption.
Qed.

Lemma ids_delete (task_id : Z) (w : world) :
  ids (snd (delete_task task_id w)) =
    match find_index task_id (collection w) with
    | Some i => map id (remove_at i (collection w))
    | None => ids w
    end.
Proof.
  unfold delete_task, ids. rewrite load_tasks_eta.
  destruct (find_index task_id (collection w)); simpl;
    autorewrite with store; reflexivity.
Qed.

Lemma step_increasing (o : op) (w : world) :
  increasing_from 0 (ids w) = true ->
  exists w', step o w = Ok w' /\ increasing_from 0 (ids w') = true.
Proof.
  intros H. destruct o as [now ttl dsc tgs|task_id].
  - destruct (step_create now ttl dsc tgs w H) as (w' & n & Hs & _ & _ & _ & _ & Hi).
    eauto.
  - eexists. split; [reflexivity|]. rewrite ids_delete.
    destruct (find_index task_id (collection w)); [|exact H].
    apply increasing_remove_at, H.
Qed.

Lemma run_increasing (ops : list op) (w : world) :
  increasing_from 0 (ids w) = true ->
  exists w', run ops w = Ok w' /\ increasing_from 0 (ids w') = true.
Proof.
  revert w. induction ops as [|o ops IH]; simpl; intros w H; [eauto|].
  destruct (step_increasing o w H) as (w1 & -> & H1). simpl. exact (IH _ H1).
Qed.

Lemma consecutive_last (l : list (option Z)) (k : Z) :
  consecutive_from k l = true -> l <> [] ->
  last l None = Some (k + Z.of_nat (List.length l) - 1).
Proof.
  revert k. induction l as [|x l IH]; intros k H Hne; [congruence|].
  simpl in H. apply andb_true_iff in H as [H1 H2].
  destruct x as [y|]; [|discriminate]. simpl in H1.
  apply Z.eqb_eq in H1; subst y.
  destruct l as [|x' l'].
  - simpl. f_equal. lia.
  - change (last (Some k :: x' :: l') None) with (last (x' :: l') None).
    rewrite (IH _ H2) by discriminate. f_equal. cbn [List.length]. lia.
Qed.

Lemma run_creates (ops : list op) (w : world) :
  forallb is_create ops = true ->
  consecutive_from 1 (ids w) = true ->
  exists w',
    run ops w = Ok w' /\ consecutive_from 1 (ids w') = true /\
    List.length (ids w') = (List.length (ids w) + List.length ops)%nat.
Proof.
  revert w. induction ops as [|o ops IH]; simpl; intros w Hall H.
  - exists w. repeat split; auto.
  - apply andb_true_iff in Hall as [Ho Hall].
    destruct o as [now ttl dsc tgs|]; [|discriminate].
    pose proof (consecutive_increasing _ _ H) as Hinc.
    destruct (step_create now ttl dsc tgs w Hinc)
      as (w1 & n & Hs & Hids & _ & Hone & Hlast & _).
    assert (En : n = 1 + Z.of_nat (List.length (ids w))).
    { destruct (ids w) as [|x l] eqn:E.
      - rewrite Hone by reflexivity. reflexivity.
      - assert (Hne : x :: l <> []) by discriminate.
        rewrite (consecutive_last _ _ H Hne) in Hlast.
        specialize (Hlast Hne).
        remember (Z.of_nat (List.length (x :: l))) as len.
        assert (Hl : 1 + len - 1 = n - 1) by congruence. lia. }
    rewrite Hs. simpl.
    assert (H1 : consecutive_from 1 (ids w1) = true).
    { rewrite Hids, En. apply consecutive_snoc, H. }
    destruct (IH w1 Hall H1) as (w' & Hr & Hc & Hlen).
    exists w'. repeat split; auto.
    rewrite Hlen, Hids, length_app. simpl. lia.
Qed.

Lemma last_In (l : list (option Z)) :
  l <> [] -> In (last l None) l.
Proof.
  intros Hne. rewrite (app_removelast_last None Hne) at 2.
  apply in_or_app. right. left. reflexivity.
Qed.

End Runs.

(** ** C1: uniqueness and reuse of ids *)

(** C1, as stated, fails: after two creations the deletion of task 2 frees
    the id 2, and the next creation hands 2 out again. *)
Lemma id_reused_after_delete :
  (exists w,
     run [milk; report; Delete 2; laundry] (empty_store t0900) = Ok w /\
     ids w = [Some 1; Some 2]) /\
  assigned [milk; report; Delete 2; laundry] (empty_store t0900)
    = [Some 1; Some 2; Some 2] /\
  ~ NoDup (assigned [milk; report; Delete 2; laundry] (empty_store t0900)).
Proof.
  split; [eexists; split; vm_compute; reflexivity|].
  assert (E : assigned [milk; report; Delete 2; laundry] (empty_store t0900)
              = [Some 1; Some 2; Some 2]) by (vm_compute; reflexivity).
  rewrite E. split; [reflexivity|].
  intros H. inversion H as [|x l _ H1]; subst.
  inversion H1 as [|x l Hnin _]; subst. apply Hnin. left. reflexivity.
Qed.

(** C1, amended: after every sequence of creations and deletions that starts
    on an empty store, the ids of the collection are pairwise distinct, and
    a further creation succeeds and appends a task whose id is greater than
    every id present at that moment.  (An id freed by a deletion can come
    back: see [id_reused_after_delete].) *)
Theorem ids_unique_and_fresh (now : string) (ops : list op) :
  exists w,
    run ops (empty_store now) = Ok w /\
    NoDup (ids w) /\
    forall now' ttl dsc tgs,
    exists w' n,
      step (Create now' ttl dsc tgs) w = Ok w' /\
      ids w' = ids w ++ [Some n] /\
      forall z, In (Some z) (ids w) -> z < n.
Proof.
  destruct (run_increasing ops (empty_store now) eq_refl) as (w & Hr & Hi).
  exists w. split; [exact Hr|]. split; [exact (increasing_NoDup _ _ Hi)|].
  intros now' ttl dsc tgs.
  destruct (step_create now' ttl dsc tgs w Hi) as (w' & n & Hs & Hids & Hlt & _).
  exists w', n. auto.
Qed.

(** ** C2: the sequence of ids *)

(** C2, as stated, fails: deleting task 1 of two leaves the single id 2, so
    the ids present neither start at 1 nor are free of gaps. *)
Lemma ids_gap_after_delete :
  exists w,
    run [milk; report; Delete 1] (empty_store t0900) = Ok w /\
    ids w = [Some 2] /\
    consecutive_from 1 (ids w) = false.
Proof.
  eexists. split; [vm_compute; reflexivity|]. split; reflexivity.
Qed.

(** C2, amended: after every sequence of creations and deletions that starts
    on an empty store, the ids present are positive and strictly increasing
    in the order of the collection; a creation assigns 1 on an empty
    collection and otherwise one more than the greatest id present; and
    when the sequence holds creations only, the ids are 1, 2, ..., n without
    a gap. *)
Theorem ids_increasing (now : string) (ops : list op) :
  exists w,
    run ops (empty_store now) = Ok w /\
    increasing_from 0 (ids w) = true /\
    (forall now' ttl dsc tgs,
     exists w' n,
       step (Create now' ttl dsc tgs) w = Ok w' /\
       ids w' = ids w ++ [Some n] /\
       (ids w = [] -> n = 1) /\
       (ids w <> [] ->
        In (Some (n - 1)) (ids w) /\
        forall z, In (Some z) (ids w) -> z <= n - 1)) /\
    (forallb is_create ops = true ->
     consecutive_from 1 (ids w) = true /\
     List.length (ids w) = List.length ops).
Proof.
  destruct (run_increasing ops (empty_store now) eq_refl) as (w & Hr & Hi).
  exists w. split; [exact Hr|]. split; [exact Hi|]. split.
  - intros now' ttl dsc tgs.
    destruct (step_create now' ttl dsc tgs w Hi)
      as (w' & n & Hs & Hids & Hlt & Hone & Hlast & _).
    exists w', n. repeat split; auto.
    + rewrite <- (Hlast H). apply last_In, H.
    + intros z Hz. specialize (Hlt z Hz). lia.
  - intros Hall.
    destruct (run_creates ops (empty_store now) Hall eq_refl)
      as (w' & Hr' & Hc & Hlen).
    rewrite Hr in Hr'. injection Hr' as <-. split; [exact Hc|exact Hlen].
Qed.

(** ** Deletion *)

Section Deletion.

Variable task_id : Z.
Variable w : world.

Lemma delete_task_found (i : nat) :
  find_index task_id (collection w) = Some i ->
  delete_task task_id w =
    (RNone,
     print (MsgDeleted task_id)
       (save_tasks (remove_at i (collection w)) (after_load w))).
Proof.
  intros E. unfold delete_task. rewrite load_tasks_eta, E. reflexivity.
Qed.

Lemma delete_task_missing :
  find_index task_id (collection w) = None ->
  delete_task task_id w =
    (RNone, print (MsgNotFound task_id) (after_load w)).
Proof.
  intros E. unfold delete_task. rewrite load_tasks_eta, E. reflexivity.
Qed.

Lemma delete_task_returns_none : fst (delete_task task_id w) = RNone.
Proof.
  destruct (find_index task_id (collection w)) as [i|] eqn:E.
  - rewrite (delete_task_found i E). reflexivity.
  - rewrite (delete_task_missing E). reflexivity.
Qed.

Lemma delete_present :
  In (Some task_id) (ids w) ->
  exists l1 t l2,
    collection w = l1 ++ t :: l2 /\
    id t = Some task_id /\
    (forall u, In u l1 -> id u <> Some task_id) /\
    snd (delete_task task_id w) =
      print (MsgDeleted task_id) (save_tasks (l1 ++ l2) (after_load w)).
Proof.
  intros Hin. destruct (find_index_some _ _ Hin) as (i & E).
  destruct (find_index_split _ _ _ E) as (l1 & t & l2 & Hc & Hid & Hf & Hr).
  exists l1, t, l2. repeat split; auto.
  rewrite (delete_task_found i E), Hr. reflexivity.
Qed.

Lemma delete_absent :
  ~ In (Some task_id) (ids w) ->
  snd (delete_task task_id w) =
    print (MsgNotFound task_id) (after_load w).
Proof.
  intros Hnin. apply find_index_none in Hnin.
  rewrite (delete_task_missing Hnin). reflexivity.
Qed.

End Deletion.

(** ** C3: what deletion reports *)

(** C3, as stated, fails: deletion has no [return], so it hands back [None]
    both when it removed task 1 and when it found no task 7. *)
Lemma delete_returns_no_flag :
  In (Some 1) (ids two_tasks) /\
  fst (delete_task 1 two_tasks) = RNone /\
  fst (delete_task 1 two_tasks) <> RBool true /\
  ~ In (Some 7) (ids two_tasks) /\
  fst (delete_task 7 two_tasks) = RNone /\
  fst (delete_task 7 two_tasks) <> RBool false.
Proof.
  vm_compute. repeat split; try discriminate; auto.
  intros [H|[H|[]]]; discriminate.
Qed.

(** C3, amended: for every id, deletion returns no value ([None]) and
    reports the outcome by the line it prints last: "deleted successfully"
    when a task with that id existed, which it has then removed, and
    "not found" when no such task existed, in which case the collection is
    as before. *)
Theorem delete_reports_by_message (task_id : Z) (w : world) :
  fst (delete_task task_id w) = RNone /\
  (In (Some task_id) (ids w) ->
   stdout (snd (delete_task task_id w)) =
     stdout (after_load w) ++ [MsgDeleted task_id] /\
   S (List.length (collection (snd (delete_task task_id w)))) =
     List.length (collection w)) /\
  (~ In (Some task_id) (ids w) ->
   stdout (snd (delete_task task_id w)) =
     stdout (after_load w) ++ [MsgNotFound task_id] /\
   collection (snd (delete_task task_id w)) = collection w).
Proof.
  split; [apply delete_task_returns_none|]. split.
  - intros Hin.
    destruct (delete_present task_id w Hin) as (l1 & t & l2 & Hc & _ & _ & ->).
    split; [reflexivity|]. autorewrite with store.
    rewrite Hc, !length_app. simpl. lia.
  - intros Hnin. rewrite (delete_absent task_id w Hnin).
    split; [reflexivity|]. autorewrite with store. reflexivity.
Qed.

Lemma delete_reports_by_message_witness :
  stdout (snd (delete_task 1 two_tasks)) = [MsgDeleted 1] /\
  stdout (snd (delete_task 7 two_tasks)) = [MsgNotFound 7].
Proof.
  split.
  - apply (proj1 (proj2 (delete_reports_by_message 1 two_tasks))).
    vm_compute. auto.
  - apply (proj2 (proj2 (delete_reports_by_message 7 two_tasks))).
    vm_compute. intros [H|[H|[]]]; discriminate.
Defined.

(** ** C9: what deletion changes *)

(** C9: when the id is present, deletion takes out the first task with that
    id (the only one when ids are unique), keeps every other task as it was
    and in place, makes the collection one shorter and writes the file
    once; when the id is not present, the file is not written and holds
    what it held, so the collection is the same. *)
Theorem delete_removes_one (task_id : Z) (w : world) :
  (In (Some task_id) (ids w) ->
   exists l1 t l2,
     collection w = l1 ++ t :: l2 /\
     id t = Some task_id /\
     (forall u, In u l1 -> id u <> Some task_id) /\
     collection (snd (delete_task task_id w)) = l1 ++ l2 /\
     S (List.length (collection (snd (delete_task task_id w)))) =
       List.length (collection w) /\
     (NoDup (ids w) ->
      ~ In (Some task_id) (ids (snd (delete_task task_id w)))) /\
     file (snd (delete_task task_id w)) = Json (map vars (l1 ++ l2)) /\
     writes (snd (delete_task task_id w)) = S (writes w)) /\
  (~ In (Some task_id) (ids w) ->
   file (snd (delete_task task_id w)) = file w /\
   writes (snd (delete_task task_id w)) = writes w /\
   collection (snd (delete_task task_id w)) = collection w).
Proof.
  split.
  - intros Hin.
    destruct (delete_present task_id w Hin) as (l1 & t & l2 & Hc & Hid & Hf & ->).
    exists l1, t, l2. split; [exact Hc|]. split; [exact Hid|].
    split; [exact Hf|]. unfold ids. autorewrite with store.
    split; [reflexivity|]. split; [rewrite Hc, !length_app; simpl; lia|].
    split; [|split; simpl; autorewrite with store; reflexivity].
    rewrite Hc, !map_app. simpl. rewrite Hid. apply NoDup_remove_2.
  - intros Hnin. rewrite (delete_absent task_id w Hnin). simpl.
    autorewrite with store. repeat split; reflexivity.
Qed.

Lemma delete_removes_one_witness :
  S (List.length (collection (snd (delete_task 1 two_tasks)))) =
    List.length (collection two_tasks) /\
  file (snd (delete_task 7 two_tasks)) = file two_tasks.
Proof.
  split.
  - assert (Hin : In (Some 1) (ids two_tasks)) by (vm_compute; auto).
    destruct (proj1 (delete_removes_one 1 two_tasks) Hin)
      as (l1 & t & l2 & _ & _ & _ & _ & Hlen & _).
    exact Hlen.
  - apply (proj2 (delete_removes_one 7 two_tasks)).
    vm_compute. intros [H|[H|[]]]; discriminate.
Defined.

(** ** C4: creation on a collection with a null id *)

Section NullIds.

Lemma max_from_null (l : list (option Z)) (cur : option Z) :
  In None l -> max_from cur l = Raise TypeError.
Proof.
  revert cur. induction l as [|x l IH]; simpl; intros cur Hin;
    [contradiction|].
  destruct cur as [c|]; [|reflexivity].
  destruct x as [v|]; [|reflexivity].
  destruct Hin as [E|Hin]; [discriminate|]. apply IH, Hin.
Qed.

(** Whenever some task of the collection has no id, the maximum or the
    addition after it raises, and nothing catches it. *)
Lemma new_task_null_id (ttl dsc : string) (tgs : list string) (w : world) :
  In None (ids w) -> new_task ttl dsc tgs w = Raise TypeError.
Proof.
  unfold new_task, ids. rewrite load_tasks_eta.
  destruct (collection w) as [|t l]; simpl; [contradiction|].
  intros [E|Hin].
  - rewrite E. destruct (map id l) as [|x l']; reflexivity.
  - rewrite (max_from_null _ _ Hin). reflexivity.
Qed.

End NullIds.

(** C4 fails on the code: a file whose only record has a title and a
    description but no id loads as one task with a null id; creation then
    computes [None + 1], and the [TypeError] leaves [new_task] uncaught,
    while the status transition on the same store reports [False]. *)
Theorem create_raises_on_null_id :
  ids hand_written = [None] /\
  new_task "Pay rent" "" [] hand_written = Raise TypeError /\
  fst (update_status 1 "start" hand_written) = RBool false.
Proof.
  split; [reflexivity|]. split; [|reflexivity].
  apply new_task_null_id. left. reflexivity.
Qed.

(** ** Status transitions *)

Section Transitions.

Variable task_id : Z.
Variable w : world.

Lemma update_status_invalid (action : string) :
  task_id <= 0 ->
  update_status task_id action w = (RNone, print MsgInvalidId w).
Proof.
  intros H. unfold update_status.
  replace (task_id <=? 0) with true by (symmetry; apply Z.leb_le; exact H).
  reflexivity.
Qed.

Hypothesis positive : 0 < task_id.

Lemma update_status_unfold (action : string) :
  update_status task_id action w =
    match update_first task_id action (clock w) (collection w) with
    | Some tasks' => (RBool true, save_tasks tasks' (after_load w))
    | None => (RBool false, after_load w)
    end.
Proof.
  unfold update_status.
  replace (task_id <=? 0) with false by (symmetry; apply Z.leb_gt; exact positive).
  rewrite load_tasks_eta, after_load_clock. reflexivity.
Qed.

Lemma update_status_found (action : string) (l1 l2 : list Task) (t : Task) :
  collection w = l1 ++ t :: l2 ->
  id t = Some task_id ->
  (forall u, In u l1 -> id u <> Some task_id) ->
  update_status task_id action w =
    (RBool true,
     save_tasks (l1 ++ apply_action action (clock w) t :: l2)
       (after_load w)).
Proof.
  intros Hc Hid Hfirst.
  rewrite update_status_unfold, Hc, (update_first_split _ _ _ _ _ _ Hid Hfirst).
  reflexivity.
Qed.

Lemma update_status_missing (action : string) :
  ~ In (Some task_id) (ids w) ->
  update_status task_id action w = (RBool false, after_load w).
Proof.
  intros Hnin. rewrite update_status_unfold, update_first_none; auto.
Qed.

End Transitions.

(** ** C5: when [started_at] is written *)

(** C5, as stated, fails: a second start, five minutes after the first,
    replaces the [started_at] that the first one wrote. *)
Lemma restart_overwrites_started_at :
  let w1 := snd (update_status 1 "start" (set_clock t0905 two_tasks)) in
  let w2 := snd (update_status 1 "start" (set_clock t0910 w1)) in
  map started_at (collection w1) = [Some t0905; None] /\
  map started_at (collection w2) = [Some t0910; None] /\
  map started_at (collection w2) <> map started_at (collection w1).
Proof. vm_compute. repeat split. discriminate. Qed.

(** C5, amended: on the first task with a given positive id, every start
    transition, the first as well as a repeated one, sets [started_at] to
    the clock reading of that call and the status to in_progress; a finish
    transition sets [finished_at] to the clock reading and the status to
    done and leaves [started_at] as it was.  Both report [True], write the
    collection back and touch no other task. *)
Theorem started_at_by_transition (task_id : Z) (w : world)
    (l1 l2 : list Task) (t : Task) :
  0 < task_id ->
  collection w = l1 ++ t :: l2 ->
  id t = Some task_id ->
  (forall u, In u l1 -> id u <> Some task_id) ->
  let started :=
    set_started_at (set_status t (Some "in_progress")) (Some (clock w)) in
  let finished :=
    set_finished_at (set_status t (Some "done")) (Some (clock w)) in
  update_status task_id "start" w =
    (RBool true, save_tasks (l1 ++ started :: l2) (after_load w)) /\
  started_at started = Some (clock w) /\
  update_status task_id "finish" w =
    (RBool true, save_tasks (l1 ++ finished :: l2) (after_load w)) /\
  started_at finished = started_at t.
Proof.
  intros Hpos Hc Hid Hfirst started finished.
  rewrite (update_status_found _ _ Hpos "start" _ _ _ Hc Hid Hfirst).
  rewrite (update_status_found _ _ Hpos "finish" _ _ _ Hc Hid Hfirst).
  repeat split.
Qed.

Lemma started_at_by_transition_witness :
  map started_at
    (collection (snd (update_status 1 "finish" (set_clock t0910 milk_started))))
  = [Some t0905; None].
Proof.
  destruct (started_at_by_transition 1 (set_clock t0910 milk_started)
              [] [created "Write report" "Q3 summary" ["work"] t0905 2]
              (set_started_at
                 (set_status (created "Buy milk" "2% milk" ["errand"] t0900 1)
                    (Some "in_progress"))
                 (Some t0905)))
    as (_ & _ & H & _).
  - lia.
  - reflexivity.
  - reflexivity.
  - intros u [].
  - rewrite H. reflexivity.
Defined.

(** ** C6: start on a finished task, and ids that are not found *)

(** C6, as stated, fails for ids that are not positive: 0 is the id of no
    task, yet the transition hands back [None], not [False]; the guard in
    front of the scan rejects the id before the file is read. *)
Lemma invalid_id_returns_none :
  ~ In (Some 0) (ids two_tasks) /\
  fst (update_status 0 "start" two_tasks) = RNone /\
  fst (update_status 0 "start" two_tasks) <> RBool false.
Proof.
  vm_compute. repeat split; try discriminate.
  intros [H|[H|[]]]; discriminate.
Qed.

(** C6, amended: on the first task with a given positive id, when its
    status is done, the start transition sets the status to in_progress
    and [started_at] to the clock reading and keeps [finished_at]; for
    every positive id not present in the collection the transition returns
    [False] and writes nothing; for every id that is not positive it
    returns [None] and prints a complaint, without reading the file. *)
Theorem start_on_done_and_not_found (task_id : Z) (action : string)
    (w : world) :
  (0 < task_id ->
   forall l1 t l2,
     collection w = l1 ++ t :: l2 ->
     id t = Some task_id ->
     (forall u, In u l1 -> id u <> Some task_id) ->
     status t = Some "done" ->
     let restarted :=
       set_started_at (set_status t (Some "in_progress")) (Some (clock w)) in
     update_status task_id "start" w =
       (RBool true, save_tasks (l1 ++ restarted :: l2) (after_load w)) /\
     status restarted = Some "in_progress" /\
     started_at restarted = Some (clock w) /\
     finished_at restarted = finished_at t) /\
  (0 < task_id ->
   ~ In (Some task_id) (ids w) ->
   update_status task_id action w = (RBool false, after_load w)) /\
  (task_id <= 0 ->
   update_status task_id action w = (RNone, print MsgInvalidId w)).
Proof.
  split; [|split].
  - intros Hpos l1 t l2 Hc Hid Hfirst _ restarted.
    rewrite (update_status_found _ _ Hpos "start" _ _ _ Hc Hid Hfirst).
    repeat split.
  - intros Hpos Hnin. apply update_status_missing; assumption.
  - intros Hle. apply update_status_invalid, Hle.
Qed.

Lemma start_on_done_and_not_found_witness :
  map status
    (collection (snd (update_status 1 "start" (set_clock t0915 milk_done))))
    = [Some "in_progress"; Some "todo"] /\
  map finished_at
    (collection (snd (update_status 1 "start" (set_clock t0915 milk_done))))
    = [Some t0910; None] /\
  fst (update_status 7 "start" milk_done) = RBool false /\
  fst (update_status 0 "start" milk_done) = RNone.
Proof.
  pose proof (start_on_done_and_not_found 1 "start" (set_clock t0915 milk_done))
    as (Hdone & _ & _).
  pose proof (start_on_done_and_not_found 7 "start" milk_done)
    as (_ & Hmissing & _).
  pose proof (start_on_done_and_not_found 0 "start" milk_done)
    as (_ & _ & Hinvalid).
  destruct (Hdone ltac:(lia) []
              (set_finished_at
                 (set_status
                    (set_started_at
                       (set_status
                          (created "Buy milk" "2% milk" ["errand"] t0900 1)
                          (Some "in_progress"))
                       (Some t0905))
                    (Some "done"))
                 (Some t0910))
              [created "Write report" "Q3 summary" ["work"] t0905 2]
              eq_refl eq_refl ltac:(intros u []) eq_refl)
    as (H & _).
  rewrite H, Hmissing, Hinvalid.
  - repeat split.
  - lia.
  - lia.
  - vm_compute. intros [E|[E|[]]]; discriminate.
Defined.

(** ** C10: an action that is neither start nor finish *)

(** C10: for a positive id (the ids of the data model are positive) that is
    present in the collection and an action other than start and finish,
    the transition returns [True], and what it writes to the file is the
    collection exactly as it was loaded: no task is changed. *)
Theorem unknown_action_rewrites_unchanged (task_id : Z) (action : string)
    (w : world) :
  0 < task_id ->
  In (Some task_id) (ids w) ->
  action <> "start" ->
  action <> "finish" ->
  update_status task_id action w =
    (RBool true, save_tasks (collection w) (after_load w)) /\
  collection (snd (update_status task_id action w)) = collection w /\
  file (snd (update_status task_id action w)) = Json (map vars (collection w)) /\
  writes (snd (update_status task_id action w)) = S (writes w).
Proof.
  intros Hpos Hin Hs Hf.
  rewrite (update_status_unfold _ _ Hpos), (update_first_other _ _ _ _ Hs Hf Hin).
  simpl. autorewrite with store. repeat split.
Qed.

Lemma unknown_action_rewrites_unchanged_witness :
  update_status 2 "pause" two_tasks =
    (RBool true, save_tasks (collection two_tasks) (after_load two_tasks)).
Proof.
  apply (unknown_action_rewrites_unchanged 2 "pause" two_tasks).
  - lia.
  - vm_compute. auto.
  - discriminate.
  - discriminate.
Defined.

(** ** The order on strings *)

Section StringOrder.

Lemma ascii_compare_refl (a : ascii) : Ascii.compare a a = Eq.
Proof. apply N.compare_refl. Qed.

Lemma ascii_compare_trans (a b c : ascii) :
  Ascii.compare a b = Lt -> Ascii.compare b c = Lt ->
  Ascii.compare a c = Lt.
Proof.
  unfold Ascii.compare. rewrite !N.compare_lt_iff. apply N.lt_trans.
Qed.

Lemma string_compare_cons (a b : ascii) (s t : string) :
  String.compare (String a s) (String b t) =
    match Ascii.compare a b with
    | Eq => String.compare s t
    | ne => ne
    end.
Proof. reflexivity. Qed.

Lemma string_leb_trans (s1 s2 s3 : string) :
  String.leb s1 s2 = true -> String.leb s2 s3 = true ->
  String.leb s1 s3 = true.
Proof.
  unfold String.leb. revert s2 s3.
  induction s1 as [|a s1 IH]; intros [|b s2] [|c s3]; simpl;
    try reflexivity; try discriminate.
  destruct (Ascii.compare a b) eqn:Eab; try discriminate;
    destruct (Ascii.compare b c) eqn:Ebc; try discriminate.
  - apply Ascii.compare_eq_iff in Eab, Ebc. subst.
    rewrite ascii_compare_refl. apply IH.
  - apply Ascii.compare_eq_iff in Eab. subst. rewrite Ebc. reflexivity.
  - apply Ascii.compare_eq_iff in Ebc. subst. rewrite Eab. reflexivity.
  - rewrite (ascii_compare_trans _ _ _ Eab Ebc). reflexivity.
Qed.

Lemma string_ltb_irrefl (s : string) : String.ltb s s = false.
Proof.
  unfold String.ltb. induction s as [|a s IH]; [reflexivity|].
  rewrite string_compare_cons, ascii_compare_refl. exact IH.
Qed.

Lemma string_ltb_leb (s1 s2 : string) :
  String.ltb s1 s2 = true -> String.leb s1 s2 = true.
Proof.
  unfold String.ltb, String.leb. destruct (String.compare s1 s2);
    auto; discriminate.
Qed.

Lemma string_not_ltb_leb (s1 s2 : string) :
  String.ltb s1 s2 = false -> String.leb s2 s1 = true.
Proof.
  unfold String.ltb, String.leb. rewrite (String.compare_antisym s2 s1).
  destruct (String.compare s1 s2); simpl; auto; discriminate.
Qed.

Lemma string_ltb_not_leb (s1 s2 : string) :
  String.ltb s1 s2 = true -> String.leb s2 s1 = false.
Proof.
  unfold String.ltb, String.leb. rewrite (String.compare_antisym s2 s1).
  destruct (String.compare s1 s2); simpl; auto; discriminate.
Qed.

(** The sentinel against a printed timestamp. *)

Lemma zero_le_digit (c : ascii) :
  is_digit c = true -> c = "0"%char \/ Ascii.compare "0" c = Lt.
Proof.
  destruct c as [b0 b1 b2 b3 b4 b5 b6 b7].
  destruct b0, b1, b2, b3, b4, b5, b6, b7; vm_compute; intros H;
    try discriminate H; auto.
Qed.

Lemma two_digits_digits (lo hi : N) (a b : ascii) :
  two_digits lo hi a b = true -> is_digit a = true /\ is_digit b = true.
Proof.
  unfold two_digits, is_digit.
  destruct (digit_val a); [|discriminate].
  destruct (digit_val b); [|discriminate]. auto.
Qed.

Lemma month_above_zero (m1 m2 : ascii) :
  two_digits 1 12 m1 m2 = true ->
  Ascii.compare "0" m1 = Lt \/ (m1 = "0"%char /\ Ascii.compare "0" m2 = Lt).
Proof.
  intros H. destruct (two_digits_digits _ _ _ _ H) as [H1 H2].
  destruct (zero_le_digit m1 H1) as [->|E]; [|left; exact E].
  destruct (zero_le_digit m2 H2) as [->|E]; [|right; split; [reflexivity|exact E]].
  vm_compute in H. discriminate.
Qed.

Lemma sentinel_below_timestamp (ts : string) :
  is_timestamp ts = true -> String.ltb sentinel ts = true.
Proof.
  intros H.
  do 16 (destruct ts as [|? ts]; [discriminate H|]).
  destruct ts; [|discriminate H].
  unfold is_timestamp in H.
  repeat (apply andb_true_iff in H; destruct H as [H ?]).
  unfold String.ltb, sentinel.
  repeat match goal with
  | D : is_digit ?c = true |- context [String.compare _ (String ?c _)] =>
      rewrite string_compare_cons;
      destruct (zero_le_digit c D) as [-> | ->];
        [rewrite ascii_compare_refl; clear D | reflexivity]
  | D : Ascii.eqb ?c _ = true |- context [String.compare _ (String ?c _)] =>
      apply Ascii.eqb_eq in D; subst c;
      rewrite string_compare_cons, ascii_compare_refl
  end.
  rewrite string_compare_cons.
  match goal with
  | D : two_digits 1 12 ?m1 ?m2 = true |- _ =>
      destruct (month_above_zero m1 m2 D) as [-> | [-> E]];
        [reflexivity|]
  end.
  rewrite ascii_compare_refl, string_compare_cons, E. reflexivity.
Qed.

End StringOrder.

(** ** The sort of the query *)

Section Sorting.

Variable key : Task -> string.

Lemma insert_task_perm (x : Task) (l : list Task) :
  Permutation (insert_task key x l) (x :: l).
Proof.
  induction l as [|y l IH]; simpl; [reflexivity|].
  destruct (String.ltb (key y) (key x)); [|reflexivity].
  rewrite IH. apply perm_swap.
Qed.

Lemma sort_tasks_perm (l : list Task) : Permutation (sort_tasks key l) l.
Proof.
  induction l as [|x l IH]; simpl; [reflexivity|].
  rewrite insert_task_perm. constructor. exact IH.
Qed.

Lemma insert_task_sorted (x : Task) (l : list Task) :
  StronglySorted (le_by key) l -> StronglySorted (le_by key) (insert_task key x l).
Proof.
  induction 1 as [|y l Hs IH Hy]; simpl.
  - constructor; constructor.
  - destruct (String.ltb (key y) (key x)) eqn:E.
    + constructor; [exact IH|].
      apply (Permutation_Forall (Permutation_sym (insert_task_perm x l))).
      constructor; [apply string_ltb_leb, E | exact Hy].
    + assert (Hxy : le_by key x y) by (apply string_not_ltb_leb, E).
      constructor; [constructor; assumption|].
      constructor; [exact Hxy|].
      rewrite Forall_forall in *. intros z Hz.
      apply string_leb_trans with (s2 := key y); [exact Hxy | exact (Hy z Hz)].
Qed.

Lemma sort_tasks_sorted (l : list Task) :
  StronglySorted (le_by key) (sort_tasks key l).
Proof.
  induction l as [|x l IH]; simpl; [constructor|].
  apply insert_task_sorted, IH.
Qed.

(** The sort is stable: tasks with the same key keep their order. *)
Lemma insert_task_same_key (k : string) (x : Task) (l : list Task) :
  filter (fun t => String.eqb (key t) k) (insert_task key x l) =
  filter (fun t => String.eqb (key t) k) (x :: l).
Proof.
  induction l as [|y l IH]; [reflexivity|].
  cbn [insert_task]. destruct (String.ltb (key y) (key x)) eqn:E;
    [|reflexivity].
  cbn [filter] in *. rewrite IH.
  destruct (String.eqb_spec (key y) k) as [Ey|Ey]; [|reflexivity].
  destruct (String.eqb_spec (key x) k) as [Ex|Ex]; [|reflexivity].
  exfalso. rewrite Ex, Ey, string_ltb_irrefl in E. discriminate.
Qed.

Lemma sort_tasks_stable (k : string) (l : list Task) :
  filter (fun t => String.eqb (key t) k) (sort_tasks key l) =
  filter (fun t => String.eqb (key t) k) l.
Proof.
  induction l as [|x l IH]; [reflexivity|].
  cbn [sort_tasks]. rewrite insert_task_same_key. cbn [filter].
  rewrite IH. reflexivity.
Qed.

Lemma sorted_before (l1 l2 : list Task) (t u : Task) :
  StronglySorted (le_by key) (l1 ++ t :: l2) -> In u l1 -> le_by key u t.
Proof.
  induction l1 as [|v l1 IH]; simpl; intros Hs Hin; [contradiction|].
  inversion Hs as [|? ? Hs' Hall]; subst.
  destruct Hin as [->|Hin]; [|exact (IH Hs' Hin)].
  rewrite Forall_forall in Hall. apply Hall, in_or_app. right. left.
  reflexivity.
Qed.

End Sorting.

(** ** C7: the query by status *)

Lemma status_is_true (s : string) (t : Task) :
  status_is s t = true <-> status t = Some s.
Proof.
  unfold status_is, opt_eqb. destruct (status t) as [s'|].
  - rewrite String.eqb_eq. split; congruence.
  - split; discriminate.
Qed.

(** C7: with a status given (a non-empty string, as every status is) and
    neither tag, search text nor sort, the query returns the records of
    exactly the tasks whose status equals it, in the order of the stored
    collection. *)
Theorem query_by_status (s : string) (w : world) :
  s <> "" ->
  list_tasks (Some s) None None None w =
    (Ok (map vars (filter (status_is s) (collection w))), after_load w) /\
  forall t,
    In t (filter (status_is s) (collection w)) <->
    In t (collection w) /\ status t = Some s.
Proof.
  intros Hs. split.
  - unfold list_tasks. rewrite load_tasks_eta.
    unfold filter_status, filter_tag, filter_search, sort_stage. simpl.
    destruct s; [contradiction|]. reflexivity.
  - intros t. rewrite filter_In, status_is_true. reflexivity.
Qed.

Lemma query_by_status_witness :
  list_tasks (Some "done") None None None milk_done =
    (Ok [vars (set_finished_at
                 (set_status
                    (set_started_at
                       (set_status
                          (created "Buy milk" "2% milk" ["errand"] t0900 1)
                          (Some "in_progress"))
                       (Some t0905))
                    (Some "done"))
                 (Some t0910))],
     milk_done).
Proof.
  refine (eq_trans (proj1 (query_by_status "done" milk_done _)) _).
  - discriminate.
  - reflexivity.
Defined.

(** ** C8: the query sorted by a timestamp *)

(** C8: with the sort key created_at, started_at or finished_at (and any
    status and tag filter), the query returns the records of the selected
    tasks, each once, ordered so that the key never decreases from one task
    to any later one, where the key of a task is the value of the field of
    that name, or "0000-00-00 00:00" when the field is null.  That sentinel
    is strictly below every timestamp the clock can print, so no task with
    such a timestamp stands before a task whose field is null. *)
Theorem query_sorted (s : sort_option) (st tag : option string) (w : world) :
  let field : Task -> option string :=
    match s with
    | by_created_at => created_at
    | by_started_at => started_at
    | by_finished_at => finished_at
    end in
  let key (t : Task) : string :=
    match field t with
    | Some value => value
    | None => "0000-00-00 00:00"
    end in
  exists l,
    list_tasks st tag (Some s) None w = (Ok (map vars l), after_load w) /\
    Permutation l (filter_tag tag (filter_status st (collection w))) /\
    StronglySorted (fun a b => String.leb (key a) (key b) = true) l /\
    (forall ts,
       is_timestamp ts = true -> String.ltb "0000-00-00 00:00" ts = true) /\
    (forall l1 t l2 u ts,
       l = l1 ++ t :: l2 -> field t = None ->
       In u l1 -> field u = Some ts -> is_timestamp ts = false).
Proof.
  intros field key.
  assert (Hsorted :
    StronglySorted (fun a b => String.leb (key a) (key b) = true)
      (sort_tasks (sort_key s)
         (filter_tag tag (filter_status st (collection w))))).
  { destruct s; exact (sort_tasks_sorted _ _). }
  exists (sort_tasks (sort_key s)
            (filter_tag tag (filter_status st (collection w)))).
  split; [|split; [|split; [|split]]].
  - unfold list_tasks. rewrite load_tasks_eta. reflexivity.
  - apply sort_tasks_perm.
  - exact Hsorted.
  - exact sentinel_below_timestamp.
  - intros l1 t l2 u ts El Ht Hu Hts. rewrite El in Hsorted.
    pose proof (sorted_before key _ _ _ _ Hsorted Hu) as Hle.
    unfold le_by, key in Hle. rewrite Ht, Hts in Hle.
    destruct (is_timestamp ts) eqn:E; [|reflexivity].
    apply sentinel_below_timestamp, string_ltb_not_leb in E.
    unfold sentinel in E. congruence.
Qed.

Lemma query_sorted_witness :
  exists l,
    map vars l =
      map vars
        [created "Write report" "Q3 summary" ["work"] t0905 2;
         set_started_at
           (set_status (created "Buy milk" "2% milk" ["errand"] t0900 1)
              (Some "in_progress"))
           (Some t0905)] /\
    Permutation l
      (filter_tag None (filter_status None (collection milk_started))) /\
    StronglySorted
      (fun a b =>
         String.leb
           match started_at a with
           | Some value => value
           | None => "0000-00-00 00:00"
           end
           match started_at b with
           | Some value => value
           | None => "0000-00-00 00:00"
           end = true) l.
Proof.
  destruct (query_sorted by_started_at None None milk_started)
    as (l & Hq & Hp & Hs & _).
  exists l. split; [|split; [exact Hp | exact Hs]].
  assert (E : fst (list_tasks None None (Some by_started_at) None milk_started)
              = Ok (map vars
                      [created "Write report" "Q3 summary" ["work"] t0905 2;
                       set_started_at
                         (set_status
                            (created "Buy milk" "2% milk" ["errand"] t0900 1)
                            (Some "in_progress"))
                         (Some t0905)])) by (vm_compute; reflexivity).
  apply (f_equal fst) in Hq. cbn [fst] in Hq.
  rewrite E in Hq. injection Hq as Hq. symmetry. exact Hq.
Defined.


(** * Further properties of the store *)

(** ** Loading and saving *)

Section Decoding.

Lemma load_record_decoded (now : string) (d : task_data) :
  has_required_keys d = true -> load_record now d = Ok (decoded d).
Proof.
  destruct d as [i ti de st tg cr sa fi]. unfold has_required_keys; simpl.
  destruct ti; try discriminate; destruct de; try discriminate; intros _;
    destruct tg as [| |[|x l]]; reflexivity.
Qed.

Lemma load_record_key_error (now : string) (d : task_data) :
  has_required_keys d = false -> load_record now d = Raise KeyError.
Proof.
  destruct d as [i ti de st tg cr sa fi]. unfold has_required_keys; simpl.
  destruct ti; destruct de; try discriminate; reflexivity.
Qed.

Lemma load_records_decoded (now : string) (ds : list task_data) :
  forallb has_required_keys ds = true ->
  load_records now ds = Ok (map decoded ds).
Proof.
  induction ds as [|d ds IH]; simpl; [reflexivity|].
  intros H. apply andb_true_iff in H as [Hd Hds].
  rewrite (load_record_decoded now d Hd); simpl. rewrite (IH Hds). reflexivity.
Qed.

Lemma load_records_key_error (now : string) (ds : list task_data) :
  forallb has_required_keys ds = false ->
  load_records now ds = Raise KeyError.
Proof.
  induction ds as [|d ds IH]; simpl; [discriminate|].
  destruct (has_required_keys d) eqn:Hd; simpl.
  - intros Hds. rewrite (load_record_decoded now d Hd); simpl.
    rewrite (IH Hds). reflexivity.
  - intros _. rewrite (load_record_key_error now d Hd). reflexivity.
Qed.

Lemma unreadable_collection (w : world) :
  file w = BadJson \/
  (exists ds, file w = Json ds /\ forallb has_required_keys ds = false) ->
  collection w = [].
Proof.
  unfold collection, load_tasks. intros [E|(ds & E & Hbad)]; rewrite E.
  - reflexivity.
  - rewrite (load_records_key_error (clock w) ds Hbad). reflexivity.
Qed.

End Decoding.

(** Saving a collection and loading it again gives back the same tasks,
    field for field, whatever they hold (null fields and empty tag lists
    included), and the load prints no diagnostic. *)
Theorem save_load_round_trip (l : list Task) (w : world) :
  load_tasks (save_tasks l w) = (l, save_tasks l w) /\
  stdout (snd (load_tasks (save_tasks l w))) = stdout w.
Proof.
  rewrite load_save. split; reflexivity.
Qed.

(** When every record of the file has the keys title and desc (null
    counts), the load returns one task per record, in order, and prints
    nothing: absent or null optional keys become a null id, status "todo"
    (null when the key is there with null), no tags and null timestamps. *)
Theorem load_decodes_each_record (w : world) (ds : list task_data) :
  file w = Json ds ->
  forallb has_required_keys ds = true ->
  load_tasks w = (map decoded ds, w).
Proof.
  intros E H. unfold load_tasks. rewrite E.
  rewrite (load_records_decoded (clock w) ds H). reflexivity.
Qed.

Lemma load_decodes_each_record_witness :
  load_tasks hand_written = (map decoded [bare_record], hand_written) /\
  map status (map decoded [bare_record]) = [Some "todo"].
Proof.
  split; [|reflexivity].
  apply (load_decodes_each_record hand_written [bare_record]); reflexivity.
Defined.

(** The load is all or nothing: when a single record of the file lacks the
    key title or the key desc, the load returns the empty list, the readable
    records included in the loss, and prints the [KeyError] as a
    diagnostic; the file itself is left as it is. *)
Theorem load_all_or_nothing (w : world) (ds : list task_data) :
  file w = Json ds ->
  forallb has_required_keys ds = false ->
  load_tasks w = ([], print (MsgLoadError KeyError) w) /\
  file (snd (load_tasks w)) = Json ds /\
  writes (snd (load_tasks w)) = writes w.
Proof.
  intros E H. unfold load_tasks. rewrite E.
  rewrite (load_records_key_error (clock w) ds H). simpl.
  repeat split; assumption.
Qed.

Lemma load_all_or_nothing_witness :
  load_tasks half_readable = ([], print (MsgLoadError KeyError) half_readable).
Proof.
  apply (load_all_or_nothing half_readable
           [vars (created "Buy milk" "2% milk" ["errand"] t0900 1);
            untitled_record]); reflexivity.
Defined.

(** ** Creation *)

Section Maximum.

Lemma max_from_integers (l : list (option Z)) (c : Z) :
  ~ In None l ->
  exists m,
    max_from (Some c) l = Ok (Some m) /\
    c <= m /\
    (m = c \/ In (Some m) l) /\
    (forall z, In (Some z) l -> z <= m).
Proof.
  revert c. induction l as [|[v|] l IH]; simpl; intros c Hnull.
  - exists c. split; [reflexivity|]. split; [lia|]. split; [auto|].
    intros z [].
  - assert (Hl : ~ In None l) by tauto.
    destruct (IH (if v >? c then v else c) Hl) as (m & Hm & Hle & Hin & Hall).
    exists m. split; [exact Hm|].
    assert (Hv : v <= (if v >? c then v else c) /\
                 c <= (if v >? c then v else c)).
    { destruct (v >? c) eqn:E; [apply Z.gtb_lt in E | rewrite Z.gtb_ltb in E; apply Z.ltb_ge in E]; lia. }
    split; [lia|]. split.
    + destruct Hin as [->|Hin]; [|auto].
      destruct (v >? c); auto.
    + intros z [Ez|Hz]; [injection Ez as <-; lia | exact (Hall z Hz)].
  - exfalso. apply Hnull. left. reflexivity.
Qed.

Lemma new_task_integers (ttl dsc : string) (tgs : list string) (w : world) :
  ~ In None (ids w) ->
  exists n,
    new_task ttl dsc tgs w =
      Ok (save_tasks (collection w ++ [created ttl dsc tgs (clock w) n])
            (after_load w)) /\
    (forall z, In (Some z) (ids w) -> z < n) /\
    (ids w = [] -> n = 1) /\
    (ids w <> [] -> In (Some (n - 1)) (ids w)).
Proof.
  unfold new_task, ids. rewrite load_tasks_eta, after_load_clock.
  destruct (collection w) as [|t l]; simpl.
  - intros _. exists 1. split; [reflexivity|]. split; [intros z []|].
    split; [reflexivity|congruence].
  - intros Hnull. destruct (id t) as [c|] eqn:E; [|tauto].
    assert (Hl : ~ In None (map id l)) by tauto.
    destruct (max_from_integers _ c Hl) as (m & Hm & Hle & Hin & Hall).
    rewrite Hm. simpl. exists (m + 1). split; [reflexivity|].
    split; [|split; [discriminate|]].
    + intros z [Ez|Hz]; [injection Ez as <-; lia|].
      specialize (Hall z Hz). lia.
    + intros _. replace (m + 1 - 1) with m by lia.
      destruct Hin as [->|Hin]; auto.
Qed.

Lemma null_id_dec (w : world) : {In None (ids w)} + {~ In None (ids w)}.
Proof.
  apply in_dec. decide equality. apply Z.eq_dec.
Qed.

Lemma new_task_raise (ttl dsc : string) (tgs : list string) (w : world)
    (e : exn) :
  new_task ttl dsc tgs w = Raise e -> e = TypeError /\ In None (ids w).
Proof.
  intros H. destruct (null_id_dec w) as [Hin|Hnin].
  - rewrite (new_task_null_id ttl dsc tgs w Hin) in H. split; congruence.
  - destruct (new_task_integers ttl dsc tgs w Hnin) as (n & Hn & _).
    congruence.
Qed.

End Maximum.

Section FailingWrite.

Lemma new_task_io_written (ttl dsc : string) (tgs : list string) (w : world) :
  new_task_io Written ttl dsc tgs w = new_task ttl dsc tgs w.
Proof.
  unfold new_task_io, new_task. destruct (load_tasks w). reflexivity.
Qed.

Lemma new_task_io_failed (remains : file_state) (ttl dsc : string)
    (tgs : list string) (w : world) :
  new_task_io (Failed remains) ttl dsc tgs w =
    match new_task ttl dsc tgs w with
    | Ok _ => Raise AttributeError
    | Raise e => Raise e
    end.
Proof.
  unfold new_task_io, new_task. destruct (load_tasks w) as [tasks w1].
  destruct (match tasks with
            | [] => Ok (Some 0)
            | _ :: _ => py_max (map id tasks)
            end) as [h|e]; simpl; [|reflexivity].
  destruct (add_one h); reflexivity.
Qed.

Lemma update_status_io_written (task_id : Z) (action : string) (w : world) :
  update_status_io Written task_id action w = update_status task_id action w.
Proof. reflexivity. Qed.

Lemma delete_task_io_written (task_id : Z) (w : world) :
  delete_task_io Written task_id w = Ok (delete_task task_id w).
Proof.
  unfold delete_task_io, delete_task. destruct (load_tasks w) as [tasks w1].
  destruct (find_index task_id tasks); reflexivity.
Qed.

Lemma update_task_io_written (task_id : Z) (ttl dsc : option string)
    (w : world) :
  update_task_io Written task_id ttl dsc w = update_task task_id ttl dsc w.
Proof.
  unfold update_task_io, update_task. destruct (load_tasks w) as [tasks w1].
  destruct (edit_first task_id ttl dsc tasks); reflexivity.
Qed.

Lemma main_dispatch_io_written (c : command) (w : world) :
  main_dispatch_io Written c w = main_dispatch c w.
Proof.
  destruct c; simpl.
  - rewrite new_task_io_written. reflexivity.
  - rewrite update_status_io_written. reflexivity.
  - rewrite delete_task_io_written. reflexivity.
  - rewrite update_task_io_written. reflexivity.
  - reflexivity.
Qed.

End FailingWrite.

(** Creation raises [TypeError] exactly when some task of the loaded
    collection has a null id, whatever becomes of the write, which is then
    never tried.  Otherwise creation reaches the write, whatever the order
    of the ids, and with repeated or negative ids as well.  When the write
    goes through, one task is appended and the collection saved; the new id
    is above every id present and is one more than an id that is present (1
    on an empty collection).  When the write fails, [AttributeError] leaves
    [new_task]. *)
Theorem create_outcomes (ttl dsc : string) (tgs : list string) (w : world) :
  (forall o,
     new_task_io o ttl dsc tgs w = Raise TypeError <-> In None (ids w)) /\
  (~ In None (ids w) ->
   (exists n,
      new_task_io Written ttl dsc tgs w =
        Ok (save_tasks (collection w ++ [created ttl dsc tgs (clock w) n])
              (after_load w)) /\
      (forall z, In (Some z) (ids w) -> z < n) /\
      (ids w = [] -> n = 1) /\
      (ids w <> [] -> In (Some (n - 1)) (ids w))) /\
   (forall remains,
      new_task_io (Failed remains) ttl dsc tgs w = Raise AttributeError)).
Proof.
  split.
  - intros [|remains].
    + rewrite new_task_io_written. split.
      * intros H. exact (proj2 (new_task_raise _ _ _ _ _ H)).
      * apply new_task_null_id.
    + rewrite new_task_io_failed. split.
      * destruct (new_task ttl dsc tgs w) as [w'|e] eqn:E; [discriminate|].
        intros H. injection H as ->.
        exact (proj2 (new_task_raise _ _ _ _ _ E)).
      * intros H. rewrite (new_task_null_id ttl dsc tgs w H). reflexivity.
  - intros Hnin.
    destruct (new_task_integers ttl dsc tgs w Hnin) as (n & Hn & Hrest).
    split.
    + exists n. rewrite new_task_io_written. split; [exact Hn | exact Hrest].
    + intros remains. rewrite new_task_io_failed, Hn. reflexivity.
Qed.

Lemma create_outcomes_witness :
  (exists n,
     new_task_io Written "Pay rent" "" [] unordered =
       Ok (save_tasks
             (collection unordered ++ [created "Pay rent" "" [] t0905 n])
             (after_load unordered)) /\
     (forall z, In (Some z) (ids unordered) -> z < n) /\
     (ids unordered = [] -> n = 1) /\
     (ids unordered <> [] -> In (Some (n - 1)) (ids unordered))) /\
  (forall remains,
     new_task_io (Failed remains) "Pay rent" "" [] unordered =
       Raise AttributeError).
Proof.
  apply (proj2 (create_outcomes "Pay rent" "" [] unordered)).
  vm_compute. intros [H|[H|[H|[H|[]]]]]; discriminate.
Defined.

(** Creation on a file that cannot be read (not JSON, or with a record that
    lacks title or desc) succeeds and overwrites the file: afterwards the
    file holds the new task alone, with id 1, and whatever the file held
    before is gone. *)
Theorem create_replaces_unreadable_file (ttl dsc : string)
    (tgs : list string) (w : world) :
  file w = BadJson \/
  (exists ds, file w = Json ds /\ forallb has_required_keys ds = false) ->
  exists w',
    new_task ttl dsc tgs w = Ok w' /\
    file w' = Json [vars (created ttl dsc tgs (clock w) 1)] /\
    collection w' = [created ttl dsc tgs (clock w) 1] /\
    writes w' = S (writes w).
Proof.
  intros H. pose proof (unreadable_collection w H) as Hc.
  unfold new_task. rewrite load_tasks_eta, after_load_clock, Hc. simpl.
  eexists. split; [reflexivity|]. simpl. rewrite collection_save, after_load_writes.
  repeat split.
Qed.

Lemma create_replaces_unreadable_file_witness :
  exists w',
    new_task "Pay rent" "" [] corrupt = Ok w' /\
    file w' = Json [vars (created "Pay rent" "" [] (clock corrupt) 1)] /\
    collection w' = [created "Pay rent" "" [] (clock corrupt) 1] /\
    writes w' = S (writes corrupt).
Proof.
  apply (create_replaces_unreadable_file "Pay rent" "" [] corrupt).
  left. reflexivity.
Defined.

(** ** Lookup *)

Section Lookup.

Lemma find_first (task_id : Z) (l : list Task) (t : Task) :
  find (id_is task_id) l = Some t ->
  exists l1 l2,
    l = l1 ++ t :: l2 /\ id t = Some task_id /\
    (forall u, In u l1 -> id u <> Some task_id).
Proof.
  induction l as [|x l IH]; simpl; [discriminate|].
  destruct (id_is task_id x) eqn:E.
  - intros H. injection H as ->. exists [], l.
    apply id_is_true in E. repeat split; auto; intros u [].
  - intros H. destruct (IH H) as (l1 & l2 & -> & Hid & Hfirst).
    exists (x :: l1), l2. repeat split; auto.
    intros u [<-|Hu]; [apply id_is_false, E | exact (Hfirst u Hu)].
Qed.

Lemma find_absent (task_id : Z) (l : list Task) :
  find (id_is task_id) l = None <-> ~ In (Some task_id) (map id l).
Proof.
  induction l as [|x l IH]; simpl; [tauto|].
  destruct (id_is task_id x) eqn:E.
  - apply id_is_true in E. split; [discriminate|tauto].
  - apply id_is_false in E. rewrite IH. tauto.
Qed.

Lemma view_task_valid (task_id : Z) (w : world) :
  0 < task_id ->
  view_task task_id w =
    (option_map vars (find (id_is task_id) (collection w)), after_load w).
Proof.
  intros H. unfold view_task.
  replace (task_id <=? 0) with false by (symmetry; apply Z.leb_gt; exact H).
  rewrite load_tasks_eta. reflexivity.
Qed.

Lemma view_task_invalid (task_id : Z) (w : world) :
  task_id <= 0 -> view_task task_id w = (None, print MsgInvalidId w).
Proof.
  intros H. unfold view_task.
  replace (task_id <=? 0) with true by (symmetry; apply Z.leb_le; exact H).
  reflexivity.
Qed.

Lemma deleted_id_is_gone (task_id : Z) (w : world) :
  NoDup (ids w) ->
  ~ In (Some task_id) (ids (snd (delete_task task_id w))).
Proof.
  intros Hnd.
  destruct (in_dec (fun a b : option Z =>
              ltac:(decide equality; apply Z.eq_dec) : {a = b} + {a <> b})
              (Some task_id) (ids w)) as [Hin|Hnin].
  - destruct (delete_present task_id w Hin) as (l1 & t & l2 & Hc & Hid & _ & ->).
    unfold ids in *. autorewrite with store.
    rewrite Hc, map_app in Hnd. simpl in Hnd. rewrite Hid in Hnd.
    rewrite map_app. apply NoDup_remove_2, Hnd.
  - rewrite (delete_absent task_id w Hnin). unfold ids in *.
    autorewrite with store. exact Hnin.
Qed.

End Lookup.

(** Lookup by id.  An id that is not positive is refused before the file
    is read: the result is [None] and the only line printed is the
    complaint about the id.  For a positive id the result is [None] exactly
    when no task has the id, and otherwise it is the record of the first
    task with the id, which carries that id. *)
Theorem view_finds_by_id (task_id : Z) (w : world) :
  (task_id <= 0 -> view_task task_id w = (None, print MsgInvalidId w)) /\
  (0 < task_id ->
   (fst (view_task task_id w) = None <-> ~ In (Some task_id) (ids w)) /\
   forall d,
     fst (view_task task_id w) = Some d ->
     d_id d = JVal task_id /\
     exists l1 t l2,
       collection w = l1 ++ t :: l2 /\ d = vars t /\
       (forall u, In u l1 -> id u <> Some task_id)).
Proof.
  split; [apply view_task_invalid|].
  intros Hpos. rewrite (view_task_valid _ w Hpos). simpl. split.
  - unfold ids. rewrite <- find_absent.
    destruct (find (id_is task_id) (collection w)); simpl; split;
      congruence.
  - intros d Hd.
    destruct (find (id_is task_id) (collection w)) as [t|] eqn:E;
      [|discriminate].
    simpl in Hd. injection Hd as <-.
    destruct (find_first _ _ _ E) as (l1 & l2 & Hc & Hid & Hfirst).
    split; [simpl; rewrite Hid; reflexivity|].
    exists l1, t, l2. auto.
Qed.

Lemma view_finds_by_id_witness :
  view_task 0 corrupt = (None, print MsgInvalidId corrupt) /\
  fst (view_task 7 two_tasks) = None.
Proof.
  split.
  - apply (proj1 (view_finds_by_id 0 corrupt)). lia.
  - apply (proj1 (proj2 (view_finds_by_id 7 two_tasks) ltac:(lia))).
    vm_compute. intros [H|[H|[]]]; discriminate.
Defined.

(** Create, then look up.  On a collection with positive increasing ids, a
    creation succeeds, and a lookup of the id it assigned returns the new
    task as created: the given title, description and tags, status "todo",
    the clock reading as [created_at] and no other timestamp. *)
Theorem create_then_view (ttl dsc : string) (tgs : list string) (w : world) :
  increasing_from 0 (ids w) = true ->
  exists w' n,
    new_task ttl dsc tgs w = Ok w' /\
    last (ids w') None = Some n /\
    view_task n w' = (Some (vars (created ttl dsc tgs (clock w) n)), w') /\
    vars (created ttl dsc tgs (clock w) n) =
      {| d_id := JVal n; d_title := JVal ttl; d_desc := JVal dsc;
         d_status := JVal "todo"; d_tags := JVal tgs;
         d_created_at := JVal (clock w); d_started_at := JNull;
         d_finished_at := JNull |}.
Proof.
  intros H.
  destruct (new_task_increasing ttl dsc tgs w H) as (n & Hn & Hlt & _ & _ & Hinc).
  eexists _, n. split; [exact Hn|].
  assert (Hpos : 0 < n).
  { apply (increasing_bound _ _ _ Hinc), in_or_app. right. left. reflexivity. }
  split; [|split].
  - rewrite ids_after_create, last_last. reflexivity.
  - rewrite (view_task_valid _ _ Hpos). unfold after_load.
    rewrite load_save, collection_save. simpl. f_equal.
    assert (E : find (id_is n) (collection w) = None).
    { apply find_absent. intros Hin. specialize (Hlt n Hin). lia. }
    clear - E. induction (collection w) as [|x l IH]; simpl in *.
    + unfold id_is, created. simpl. rewrite Z.eqb_refl. reflexivity.
    + destruct (id_is n x); [discriminate|]. exact (IH E).
  - unfold created, vars. simpl. destruct tgs; reflexivity.
Qed.

Lemma create_then_view_witness :
  exists w' n,
    new_task "Laundry" "" [] two_tasks = Ok w' /\
    last (ids w') None = Some n /\
    view_task n w' =
      (Some (vars (created "Laundry" "" [] (clock two_tasks) n)), w') /\
    vars (created "Laundry" "" [] (clock two_tasks) n) =
      {| d_id := JVal n; d_title := JVal "Laundry"; d_desc := JVal "";
         d_status := JVal "todo"; d_tags := JVal [];
         d_created_at := JVal (clock two_tasks); d_started_at := JNull;
         d_finished_at := JNull |}.
Proof.
  apply (create_then_view "Laundry" "" [] two_tasks). reflexivity.
Defined.

(** Delete, then look up.  When the ids of the collection are pairwise
    distinct, a lookup of an id right after its deletion finds nothing. *)
Theorem delete_then_view (task_id : Z) (w : world) :
  NoDup (ids w) ->
  fst (view_task task_id (snd (delete_task task_id w))) = None.
Proof.
  intros Hnd. destruct (Z_le_gt_dec task_id 0) as [Hle|Hgt].
  - rewrite (view_task_invalid _ _ Hle). reflexivity.
  - assert (Hpos : 0 < task_id) by lia.
    rewrite (view_task_valid _ _ Hpos). simpl.
    replace (find (id_is task_id) (collection (snd (delete_task task_id w))))
      with (@None Task); [reflexivity|].
    symmetry. apply find_absent. exact (deleted_id_is_gone task_id w Hnd).
Qed.

Lemma delete_then_view_witness :
  fst (view_task 1 (snd (delete_task 1 two_tasks))) = None.
Proof.
  apply (delete_then_view 1 two_tasks).
  apply (increasing_NoDup _ 0). reflexivity.
Defined.

(** Lookup and query only read: whatever the arguments, the file, the
    count of writes and the collection are afterwards what they were. *)
Theorem queries_do_not_write (task_id : Z) (st tag search : option string)
    (sort : option sort_option) (w : world) :
  file (snd (view_task task_id w)) = file w /\
  writes (snd (view_task task_id w)) = writes w /\
  collection (snd (view_task task_id w)) = collection w /\
  file (snd (list_tasks st tag sort search w)) = file w /\
  writes (snd (list_tasks st tag sort search w)) = writes w /\
  collection (snd (list_tasks st tag sort search w)) = collection w.
Proof.
  assert (Hv : snd (view_task task_id w) = print MsgInvalidId w \/
               snd (view_task task_id w) = after_load w).
  { destruct (Z_le_gt_dec task_id 0) as [Hle|Hgt].
    - left. rewrite (view_task_invalid _ _ Hle). reflexivity.
    - right. rewrite (view_task_valid _ w) by lia. reflexivity. }
  assert (Hl : snd (list_tasks st tag sort search w) = after_load w).
  { unfold list_tasks. rewrite load_tasks_eta. reflexivity. }
  rewrite Hl. destruct Hv as [-> | ->]; autorewrite with store;
    repeat split.
Qed.

(** ** Editing title and description *)

Section Editing.

Lemma edit_first_split (task_id : Z) (ttl dsc : option string)
    (l1 l2 : list Task) (t : Task) :
  id t = Some task_id ->
  (forall u, In u l1 -> id u <> Some task_id) ->
  edit_first task_id ttl dsc (l1 ++ t :: l2) =
    Some (l1 ++ edit_fields ttl dsc t :: l2).
Proof.
  intros Hid. induction l1 as [|u l1 IH]; simpl; intros Hfirst.
  - apply id_is_true in Hid. rewrite Hid. reflexivity.
  - assert (E : id_is task_id u = false)
      by (apply id_is_false, Hfirst; left; reflexivity).
    rewrite E, IH; [reflexivity|]. intros v Hv. apply Hfirst. right; exact Hv.
Qed.

Lemma edit_first_none (task_id : Z) (ttl dsc : option string)
    (l : list Task) :
  edit_first task_id ttl dsc l = None <-> ~ In (Some task_id) (map id l).
Proof.
  induction l as [|t l IH]; simpl; [tauto|].
  destruct (id_is task_id t) eqn:E.
  - apply id_is_true in E. split; [discriminate|tauto].
  - apply id_is_false in E.
    destruct (edit_first task_id ttl dsc l); simpl.
    + split; [discriminate|]. intros H.
      assert (F : Some l0 = None) by (apply IH; tauto). discriminate.
    + split; [|reflexivity]. intros _ [H|H]; [exact (E H)|].
      apply IH in H; auto.
Qed.

Lemma edit_fields_nothing (ttl dsc : option string) (t : Task) :
  opt_truthy ttl = false -> opt_truthy dsc = false ->
  edit_fields ttl dsc t = t.
Proof. unfold edit_fields. intros -> ->. reflexivity. Qed.

Lemma edit_first_nothing (task_id : Z) (ttl dsc : option string)
    (l : list Task) :
  opt_truthy ttl = false -> opt_truthy dsc = false ->
  In (Some task_id) (map id l) ->
  edit_first task_id ttl dsc l = Some l.
Proof.
  intros Ht Hd. induction l as [|t l IH]; simpl; intros Hin; [contradiction|].
  destruct (id_is task_id t) eqn:E.
  - rewrite (edit_fields_nothing _ _ t Ht Hd). reflexivity.
  - apply id_is_false in E. rewrite IH; [reflexivity|].
    destruct Hin as [H|H]; [contradiction|exact H].
Qed.

Lemma update_task_unfold (task_id : Z) (ttl dsc : option string)
    (w : world) :
  update_task task_id ttl dsc w =
    match edit_first task_id ttl dsc (collection w) with
    | Some tasks' => Ok (save_tasks tasks' (after_load w))
    | None => Raise ValueError
    end.
Proof. unfold update_task. rewrite load_tasks_eta. reflexivity. Qed.

End Editing.

(** An edit raises [ValueError] exactly when no task of the collection has
    the id.  The id is not checked for being positive: an id of 0 or below
    is looked up like any other. *)
Theorem update_task_fails_exactly_when_absent (task_id : Z)
    (ttl dsc : option string) (w : world) :
  update_task task_id ttl dsc w = Raise ValueError <->
  ~ In (Some task_id) (ids w).
Proof.
  rewrite update_task_unfold. unfold ids.
  rewrite <- (edit_first_none task_id ttl dsc).
  destruct (edit_first task_id ttl dsc (collection w)); split; intros H;
    try discriminate H; reflexivity.
Qed.

(** An edit changes the first task with the id and nothing else, and of
    that task only the title and the description: each is replaced when the
    argument is a non-empty string and kept when the argument is missing or
    empty, so a text cannot be emptied.  Id, status, tags and timestamps
    stay, and the collection is written back. *)
Theorem update_task_edits_texts_only (task_id : Z) (ttl dsc : option string)
    (w : world) (l1 l2 : list Task) (t : Task) :
  collection w = l1 ++ t :: l2 ->
  id t = Some task_id ->
  (forall u, In u l1 -> id u <> Some task_id) ->
  exists t',
    update_task task_id ttl dsc w =
      Ok (save_tasks (l1 ++ t' :: l2) (after_load w)) /\
    title t' = (if opt_truthy ttl then ttl else title t) /\
    desc t' = (if opt_truthy dsc then dsc else desc t) /\
    id t' = id t /\ status t' = status t /\ tags t' = tags t /\
    created_at t' = created_at t /\ started_at t' = started_at t /\
    finished_at t' = finished_at t.
Proof.
  intros Hc Hid Hfirst. exists (edit_fields ttl dsc t).
  rewrite update_task_unfold, Hc, (edit_first_split _ ttl dsc _ _ _ Hid Hfirst).
  split; [reflexivity|]. unfold edit_fields.
  destruct (opt_truthy ttl), (opt_truthy dsc); repeat split.
Qed.

Lemma update_task_edits_texts_only_witness :
  exists t',
    update_task 2 (Some "Write the report") (Some "") two_tasks =
      Ok (save_tasks
            ([created "Buy milk" "2% milk" ["errand"] t0900 1] ++ t' :: [])
            (after_load two_tasks)) /\
    title t' = Some "Write the report" /\
    desc t' = Some "Q3 summary".
Proof.
  destruct (update_task_edits_texts_only 2 (Some "Write the report") (Some "")
              two_tasks
              [created "Buy milk" "2% milk" ["errand"] t0900 1] []
              (created "Write report" "Q3 summary" ["work"] t0905 2))
    as (t' & Hu & Ht & Hd & _).
  - reflexivity.
  - reflexivity.
  - intros u [<-|[]]. discriminate.
  - exists t'. split; [exact Hu|]. split; [exact Ht | exact Hd].
Defined.

(** An edit that names a task of the collection but brings no text (both
    arguments missing or empty) still succeeds and still writes the file,
    with the collection exactly as it was loaded. *)
Theorem update_task_without_texts (task_id : Z) (ttl dsc : option string)
    (w : world) :
  opt_truthy ttl = false ->
  opt_truthy dsc = false ->
  In (Some task_id) (ids w) ->
  update_task task_id ttl dsc w =
    Ok (save_tasks (collection w) (after_load w)) /\
  writes (save_tasks (collection w) (after_load w)) = S (writes w).
Proof.
  intros Ht Hd Hin.
  rewrite update_task_unfold, (edit_first_nothing _ _ _ _ Ht Hd Hin).
  simpl. rewrite after_load_writes. split; reflexivity.
Qed.

Lemma update_task_without_texts_witness :
  update_task 2 None (Some "") two_tasks =
    Ok (save_tasks (collection two_tasks) (after_load two_tasks)).
Proof.
  apply (update_task_without_texts 2 None (Some "") two_tasks).
  - reflexivity.
  - reflexivity.
  - vm_compute. auto.
Defined.

(** ** What a status transition leaves alone *)

Section TransitionFrame.

Variable A : Type.
Variable f : Task -> A.
Hypothesis untouched :
  forall action now t, f (apply_action action now t) = f t.

Lemma update_first_frame (task_id : Z) (action now : string)
    (l l' : list Task) :
  update_first task_id action now l = Some l' -> map f l' = map f l.
Proof.
  revert l'. induction l as [|t l IH]; simpl; intros l' H; [discriminate|].
  destruct (id_is task_id t).
  - injection H as <-. simpl. rewrite untouched. reflexivity.
  - destruct (update_first task_id action now l) as [r|]; [|discriminate].
    injection H as <-. simpl. rewrite (IH r eq_refl). reflexivity.
Qed.

Lemma update_status_frame (task_id : Z) (action : string) (w : world) :
  map f (collection (snd (update_status task_id action w))) =
  map f (collection w).
Proof.
  unfold update_status. destruct (task_id <=? 0).
  - simpl. rewrite collection_print. reflexivity.
  - rewrite load_tasks_eta.
    destruct (update_first task_id action (clock (after_load w))
                (collection w)) as [l'|] eqn:E; simpl.
    + rewrite collection_save. exact (update_first_frame _ _ _ _ _ E).
    + rewrite collection_after_load. reflexivity.
Qed.

End TransitionFrame.

Lemma apply_action_cases (action now : string) (t : Task) :
  apply_action action now t =
    set_started_at (set_status t (Some "in_progress")) (Some now) \/
  apply_action action now t =
    set_finished_at (set_status t (Some "done")) (Some now) \/
  apply_action action now t = t.
Proof.
  unfold apply_action.
  destruct (action =? "start")%string; [auto|].
  destruct (action =? "finish")%string; auto.
Qed.

(** A status transition, whatever the id and the action, leaves the ids,
    titles, descriptions, tags and creation times of all tasks as they
    were, in number and in order: it adds no task, drops none and renumbers
    none. *)
Theorem transition_keeps_identity (task_id : Z) (action : string)
    (w : world) :
  ids (snd (update_status task_id action w)) = ids w /\
  map title (collection (snd (update_status task_id action w))) =
    map title (collection w) /\
  map desc (collection (snd (update_status task_id action w))) =
    map desc (collection w) /\
  map tags (collection (snd (update_status task_id action w))) =
    map tags (collection w) /\
  map created_at (collection (snd (update_status task_id action w))) =
    map created_at (collection w).
Proof.
  unfold ids.
  repeat split; apply update_status_frame; intros a now t;
    destruct (apply_action_cases a now t) as [-> | [-> | ->]]; reflexivity.
Qed.

(** ** The filters of the query *)

Section Filters.

Lemma has_tag_true (g : string) (t : Task) :
  has_tag g t = true <-> In g (tags t).
Proof.
  unfold has_tag. rewrite existsb_exists. split.
  - intros (x & Hx & E). apply String.eqb_eq in E. subst. exact Hx.
  - intros H. exists g. split; [exact H | apply String.eqb_refl].
Qed.

Lemma truthy_nonempty (s : string) : s <> "" -> truthy s = true.
Proof. destruct s; [contradiction|reflexivity]. Qed.

Lemma prefix_append (a b : string) :
  String.prefix a b = true <-> exists post, b = (a ++ post)%string.
Proof.
  revert b. induction a as [|x a IH]; intros b.
  - split; [intros _; exists b; reflexivity | intros _; destruct b; reflexivity].
  - destruct b as [|y b]; simpl.
    + split; [discriminate | intros (post & H); discriminate].
    + destruct (ascii_dec x y) as [->|Hne].
      * rewrite IH. split; intros (post & H); exists post.
        -- rewrite H. reflexivity.
        -- injection H as H. exact H.
      * split; [discriminate|]. intros (post & H). injection H as H _.
        congruence.
Qed.

(** [contains] is the occurrence of one string inside another. *)
Lemma contains_occurs (q s : string) :
  contains q s = true <->
  exists pre post, s = (pre ++ q ++ post)%string.
Proof.
  induction s as [|c s IH].
  - cbn [contains]. rewrite orb_false_r, prefix_append. split.
    + intros (post & H). exists "", post. exact H.
    + intros (pre & post & H). destruct pre as [|x pre]; [|discriminate].
      exists post. exact H.
  - cbn [contains]. rewrite orb_true_iff, prefix_append, IH. split.
    + intros [(post & H)|(pre & post & H)].
      * exists "", post. exact H.
      * exists (String c pre), post. rewrite H. reflexivity.
    + intros (pre & post & H). destruct pre as [|x pre].
      * left. exists post. exact H.
      * right. injection H as _ H. exists pre, post. exact H.
Qed.

Lemma search_matches_texts (q : string) (t : Task) :
  texts_present t = true -> search_matches q t = Ok (text_matches q t).
Proof.
  unfold texts_present, search_matches, text_matches.
  destruct (title t) as [a|]; [|discriminate].
  destruct (desc t) as [b|]; [|discriminate]. intros _. simpl.
  destruct (contains q a); reflexivity.
Qed.

Lemma filter_r_texts (q : string) (l : list Task) :
  forallb texts_present l = true ->
  filter_r (search_matches q) l = Ok (filter (text_matches q) l).
Proof.
  induction l as [|t l IH]; simpl; [reflexivity|].
  intros H. apply andb_true_iff in H as [Ht Hl].
  rewrite (search_matches_texts q t Ht); simpl. rewrite (IH Hl). reflexivity.
Qed.

Lemma search_matches_type_error (q : string) (t : Task) (e : exn) :
  search_matches q t = Raise e -> e = TypeError.
Proof.
  unfold search_matches, py_in.
  destruct (title t) as [a|]; simpl; [|congruence].
  destruct (contains q a); [discriminate|].
  destruct (desc t); [discriminate|congruence].
Qed.

Lemma filter_r_type_error (q : string) (l : list Task) (e : exn) :
  filter_r (search_matches q) l = Raise e -> e = TypeError.
Proof.
  induction l as [|t l IH]; simpl; [discriminate|].
  destruct (search_matches q t) eqn:E; simpl.
  - destruct (filter_r (search_matches q) l); simpl; [discriminate|].
    intros H. apply IH. congruence.
  - intros H. apply (search_matches_type_error q t). congruence.
Qed.

Lemma filter_r_null_title (q : string) (l : list Task) (t : Task) :
  In t l -> title t = None ->
  filter_r (search_matches q) l = Raise TypeError.
Proof.
  intros Hin Ht.
  destruct (filter_r (search_matches q) l) as [r|e] eqn:E.
  - exfalso. revert r E. induction l as [|u l IH]; [contradiction|].
    simpl. intros r. destruct Hin as [->|Hin].
    + unfold search_matches. rewrite Ht. discriminate.
    + destruct (search_matches q u); simpl; [|discriminate].
      destruct (filter_r (search_matches q) l) as [r'|]; simpl;
        [|discriminate].
      intros _. exact (IH Hin r' eq_refl).
  - rewrite (filter_r_type_error q l e E). reflexivity.
Qed.

Lemma forallb_filter_keeps (p f : Task -> bool) (l : list Task) :
  forallb p l = true -> forallb p (filter f l) = true.
Proof.
  induction l as [|t l IH]; simpl; [reflexivity|].
  intros H. apply andb_true_iff in H as [Ht Hl].
  destruct (f t); simpl; [rewrite Ht|]; auto.
Qed.

Lemma selected_texts (st tag : option string) (l : list Task) :
  forallb texts_present l = true ->
  forallb texts_present (filter_tag tag (filter_status st l)) = true.
Proof.
  intros H. unfold filter_tag, filter_status.
  destruct (opt_truthy tag), tag, (opt_truthy st), st;
    repeat apply forallb_filter_keeps; exact H.
Qed.

End Filters.

(** With a non-empty tag and neither search text nor sort, the query
    returns the records of exactly those tasks, among the ones the status
    filter lets through, whose tag list holds the tag as one of its
    entries, in stored order. *)
Theorem query_by_tag (st : option string) (g : string) (w : world) :
  g <> "" ->
  list_tasks st (Some g) None None w =
    (Ok (map vars (filter (has_tag g) (filter_status st (collection w)))),
     after_load w) /\
  forall t,
    In t (filter (has_tag g) (filter_status st (collection w))) <->
    In t (filter_status st (collection w)) /\ In g (tags t).
Proof.
  intros Hg. split.
  - unfold list_tasks. rewrite load_tasks_eta.
    unfold filter_tag, filter_search, sort_stage. simpl.
    rewrite (truthy_nonempty g Hg). reflexivity.
  - intros t. rewrite filter_In, has_tag_true. reflexivity.
Qed.

Lemma query_by_tag_witness :
  list_tasks None (Some "work") None None two_tasks =
    (Ok (map vars (filter (has_tag "work")
                     (filter_status None (collection two_tasks)))),
     after_load two_tasks).
Proof.
  apply (proj1 (query_by_tag None "work" two_tasks ltac:(discriminate))).
Defined.

(** With a non-empty search text, and no task with a null title or
    description, the query returns the records of exactly the tasks in
    whose title or description the text occurs as a contiguous piece (case
    and all), in stored order. *)
Theorem query_by_search (q : string) (w : world) :
  q <> "" ->
  forallb texts_present (collection w) = true ->
  list_tasks None None None (Some q) w =
    (Ok (map vars (filter (text_matches q) (collection w))), after_load w) /\
  forall t,
    In t (filter (text_matches q) (collection w)) <->
    In t (collection w) /\
    exists a b,
      title t = Some a /\ desc t = Some b /\
      ((exists pre post, a = (pre ++ q ++ post)%string) \/
       (exists pre post, b = (pre ++ q ++ post)%string)).
Proof.
  intros Hq Hall. split.
  - unfold list_tasks. rewrite load_tasks_eta.
    unfold filter_status, filter_tag, filter_search, sort_stage. simpl.
    rewrite (truthy_nonempty q Hq), (filter_r_texts q _ Hall). reflexivity.
  - intros t. rewrite filter_In. split.
    + intros [Hin Hm]. split; [exact Hin|].
      unfold text_matches in Hm.
      destruct (title t) as [a|]; [|discriminate].
      destruct (desc t) as [b|]; [|discriminate].
      exists a, b. split; [reflexivity|]. split; [reflexivity|].
      apply orb_true_iff in Hm. rewrite <- !contains_occurs. exact Hm.
    + intros [Hin (a & b & Ha & Hb & Hocc)]. split; [exact Hin|].
      unfold text_matches. rewrite Ha, Hb.
      apply orb_true_iff. rewrite !contains_occurs. exact Hocc.
Qed.

Lemma query_by_search_witness :
  list_tasks None None None (Some "milk") two_tasks =
    (Ok (map vars (filter (text_matches "milk") (collection two_tasks))),
     after_load two_tasks).
Proof.
  apply (proj1 (query_by_search "milk" two_tasks ltac:(discriminate)
                  ltac:(reflexivity))).
Defined.

(** A query with a non-empty search text on a collection that holds a task
    with a null title ends in a [TypeError], with or without a sort key:
    the test [search in task.title] is made on every task. *)
Theorem search_raises_on_null_title (q : string) (sort : option sort_option)
    (w : world) (t : Task) :
  q <> "" ->
  In t (collection w) ->
  title t = None ->
  fst (list_tasks None None sort (Some q) w) = Raise TypeError.
Proof.
  intros Hq Hin Ht. unfold list_tasks. rewrite load_tasks_eta.
  unfold filter_status, filter_tag, filter_search. simpl.
  rewrite (truthy_nonempty q Hq), (filter_r_null_title q _ t Hin Ht).
  reflexivity.
Qed.

Lemma search_raises_on_null_title_witness :
  fst (list_tasks None None None (Some "milk") null_title) = Raise TypeError.
Proof.
  apply (search_raises_on_null_title "milk" None null_title
           (decoded null_title_record)).
  - discriminate.
  - left. reflexivity.
  - reflexivity.
Defined.

(** ** More on the sort *)

Section SortedInput.

Variable key : Task -> string.

Lemma insert_task_front (x : Task) (l : list Task) :
  Forall (le_by key x) l -> insert_task key x l = x :: l.
Proof.
  destruct l as [|y l]; [reflexivity|]. intros H.
  inversion H as [|? ? Hxy _]; subst. simpl.
  destruct (String.ltb (key y) (key x)) eqn:E; [|reflexivity].
  apply string_ltb_not_leb in E. unfold le_by in Hxy. congruence.
Qed.

Lemma sort_tasks_sorted_input (l : list Task) :
  StronglySorted (le_by key) l -> sort_tasks key l = l.
Proof.
  induction 1 as [|x l Hs IH Hx]; simpl; [reflexivity|].
  rewrite IH. apply insert_task_front, Hx.
Qed.

End SortedInput.

(** The sort is stable: among the selected tasks, those with one and the
    same key (tasks with a null field among them, under the sentinel) come
    out in the order in which they are stored. *)
Theorem query_sort_stable (s : sort_option) (st tag : option string)
    (w : world) (k : string) :
  exists l,
    fst (list_tasks st tag (Some s) None w) = Ok (map vars l) /\
    filter (fun t => String.eqb (sort_key s t) k) l =
    filter (fun t => String.eqb (sort_key s t) k)
      (filter_tag tag (filter_status st (collection w))).
Proof.
  exists (sort_tasks (sort_key s)
            (filter_tag tag (filter_status st (collection w)))).
  split.
  - unfold list_tasks. rewrite load_tasks_eta. reflexivity.
  - apply sort_tasks_stable.
Qed.

(** When the stored collection is already in the order of the key, the
    sorted query returns it in stored order: the same answer as the query
    without a sort. *)
Theorem query_sort_of_sorted (s : sort_option) (w : world) :
  StronglySorted (key_le s) (collection w) ->
  list_tasks None None (Some s) None w = list_tasks None None None None w.
Proof.
  intros H. unfold list_tasks. rewrite load_tasks_eta.
  unfold filter_status, filter_tag, filter_search, sort_stage. simpl.
  rewrite (sort_tasks_sorted_input (sort_key s) _ H). reflexivity.
Qed.

Lemma query_sort_of_sorted_witness :
  list_tasks None None (Some by_created_at) None two_tasks =
  list_tasks None None None None two_tasks.
Proof.
  apply (query_sort_of_sorted by_created_at two_tasks).
  vm_compute. repeat constructor.
Defined.

(** ** The program as a whole *)

Section Soundness.

Lemma sound_parts (l : list Task) :
  sound l = true <->
  increasing_from 0 (map id l) = true /\ forallb texts_present l = true.
Proof. unfold sound. apply andb_true_iff. Qed.

Lemma forallb_as_map (l : list Task) :
  forallb texts_present l = forallb (fun b : bool => b) (map texts_present l).
Proof.
  induction l as [|t l IH]; simpl; [reflexivity|]. rewrite IH. reflexivity.
Qed.

Lemma texts_apply_action (action now : string) (t : Task) :
  texts_present (apply_action action now t) = texts_present t.
Proof.
  destruct (apply_action_cases action now t) as [-> | [-> | ->]];
    reflexivity.
Qed.

Lemma id_apply_action (action now : string) (t : Task) :
  id (apply_action action now t) = id t.
Proof.
  destruct (apply_action_cases action now t) as [-> | [-> | ->]];
    reflexivity.
Qed.

Lemma sound_update_status (task_id : Z) (action : string) (w : world) :
  sound (collection w) = true ->
  sound (collection (snd (update_status task_id action w))) = true.
Proof.
  rewrite !sound_parts, !forallb_as_map.
  rewrite (update_status_frame _ texts_present texts_apply_action).
  rewrite (update_status_frame _ id id_apply_action). auto.
Qed.

Lemma texts_edit_fields (ttl dsc : option string) (t : Task) :
  texts_present t = true -> texts_present (edit_fields ttl dsc t) = true.
Proof.
  destruct t as [i [a|] [b|] st tg cr sa fi]; try discriminate. intros _.
  unfold texts_present, edit_fields.
  destruct ttl as [x|], dsc as [y|]; simpl;
    try destruct (truthy x); try destruct (truthy y); reflexivity.
Qed.

Lemma sound_edit_first (task_id : Z) (ttl dsc : option string)
    (l l' : list Task) :
  edit_first task_id ttl dsc l = Some l' ->
  map id l' = map id l /\
  (forallb texts_present l = true -> forallb texts_present l' = true).
Proof.
  revert l'. induction l as [|t l IH]; simpl; intros l' H; [discriminate|].
  destruct (id_is task_id t).
  - injection H as <-. simpl. split.
    + f_equal. unfold edit_fields.
      destruct (opt_truthy ttl), (opt_truthy dsc); reflexivity.
    + intros Hall. apply andb_true_iff in Hall as [Ht Hl].
      rewrite (texts_edit_fields ttl dsc t Ht). exact Hl.
  - destruct (edit_first task_id ttl dsc l) as [r|]; [|discriminate].
    injection H as <-. destruct (IH r eq_refl) as [Hid Htx]. simpl. split.
    + rewrite Hid. reflexivity.
    + intros Hall. apply andb_true_iff in Hall as [Ht Hl].
      rewrite Ht. exact (Htx Hl).
Qed.

Lemma forallb_remove_at (p : Task -> bool) (i : nat) (l : list Task) :
  forallb p l = true -> forallb p (remove_at i l) = true.
Proof.
  revert i. induction l as [|t l IH]; intros [|i]; simpl; auto;
    intros H; apply andb_true_iff in H as [Ht Hl]; auto.
  rewrite Ht. exact (IH i Hl).
Qed.

Lemma sound_delete (task_id : Z) (w : world) :
  sound (collection w) = true ->
  sound (collection (snd (delete_task task_id w))) = true.
Proof.
  rewrite !sound_parts. intros [Hi Ht]. unfold delete_task.
  rewrite load_tasks_eta.
  destruct (find_index task_id (collection w)) as [i|]; simpl;
    autorewrite with store; [|auto].
  split; [apply increasing_remove_at, Hi | apply forallb_remove_at, Ht].
Qed.

Lemma sound_create (ttl dsc : string) (tgs : list string) (w : world) :
  sound (collection w) = true ->
  exists w',
    new_task ttl dsc tgs w = Ok w' /\ sound (collection w') = true.
Proof.
  rewrite sound_parts. intros [Hi Ht].
  destruct (new_task_increasing ttl dsc tgs w Hi) as (n & Hn & _ & _ & _ & Hinc).
  eexists. split; [exact Hn|]. rewrite collection_save, sound_parts. split.
  - rewrite map_app. exact Hinc.
  - rewrite forallb_app, Ht. reflexivity.
Qed.

Lemma view_task_collection (task_id : Z) (w : world) :
  collection (snd (view_task task_id w)) = collection w.
Proof.
  destruct (Z_le_gt_dec task_id 0) as [Hle|Hgt].
  - rewrite (view_task_invalid _ _ Hle). apply collection_print.
  - rewrite (view_task_valid _ w) by lia. apply collection_after_load.
Qed.

Lemma main_dispatch_sound (c : command) (w : world) :
  sound (collection w) = true ->
  exists w' out,
    main_dispatch c w = Ok (w', out) /\ sound (collection w') = true.
Proof.
  intros H. destruct c as [ttl dsc tgs|task_id action|task_id
                          |task_id ttl dsc|st tag sort search]; simpl.
  - destruct (sound_create ttl dsc tgs w H) as (w' & -> & H'). simpl. eauto.
  - destruct (action =? "view")%string.
    + destruct (view_task task_id w) as [r w'] eqn:E.
      exists w', [ShownRecord r]. split; [reflexivity|].
      pose proof (view_task_collection task_id w) as Hc.
      rewrite E in Hc. simpl in Hc. rewrite Hc. exact H.
    + eexists _, _. split; [reflexivity|]. apply sound_update_status, H.
  - eexists _, _. split; [reflexivity|]. apply sound_delete, H.
  - rewrite update_task_unfold.
    destruct (edit_first task_id ttl dsc (collection w)) as [l'|] eqn:E.
    + eexists _, _. split; [reflexivity|]. rewrite collection_save.
      destruct (sound_edit_first _ _ _ _ _ E) as [Hid Htx].
      apply sound_parts in H as [Hi Ht]. apply sound_parts.
      rewrite Hid. auto.
    + eexists _, _. split; [reflexivity|].
      rewrite collection_after_load. exact H.
  - unfold list_tasks. rewrite load_tasks_eta.
    apply sound_parts in H as H'. destruct H' as [_ Ht].
    assert (Hs := selected_texts st tag _ Ht).
    assert (Hf : exists found,
               filter_search search
                 (filter_tag tag (filter_status st (collection w)))
               = Ok found).
    { unfold filter_search. destruct (opt_truthy search); [|eauto].
      destruct search as [q|]; [|eauto].
      rewrite (filter_r_texts q _ Hs). eauto. }
    destruct Hf as (found & ->). simpl. eexists _, _.
    split; [reflexivity|]. rewrite collection_after_load. exact H.
Qed.

End Soundness.

(** As long as every write goes through, nothing ends in a traceback on
    a store that the program has built itself.  Starting from a collection
    with positive increasing ids and no null title or description (an
    absent file among them), every sequence of runs of the program whose
    writes all succeed, whatever the sub-commands and their arguments, runs
    to its end, and the collection is again of that kind. *)
Theorem session_completes_when_writes_succeed (runs : list run_of_main)
    (w : world) :
  forallb write_succeeds runs = true ->
  sound (collection w) = true ->
  exists w' out,
    session runs w = Ok (w', out) /\ sound (collection w') = true.
Proof.
  revert w. induction runs as [|[now c o] runs IH]; simpl; intros w Hw H.
  - exists w, []. auto.
  - apply andb_true_iff in Hw as [Ho Hw].
    destruct o as [|remains]; [|discriminate]. simpl.
    rewrite main_dispatch_io_written.
    assert (H0 : sound (collection (set_clock now w)) = true)
      by (rewrite collection_set_clock; exact H).
    destruct (main_dispatch_sound c _ H0) as (w1 & out1 & -> & H1). simpl.
    destruct (IH w1 Hw H1) as (w' & out & -> & H'). simpl. eauto.
Qed.

Lemma session_completes_when_writes_succeed_witness :
  exists w' out,
    session
      [mkRun t0900 (CmdNewTask "Buy milk" "2% milk" ["errand"]) Written;
       mkRun t0905 (CmdTask 1 "start") Written;
       mkRun t0910 (CmdUpdateTask 9 (Some "x") None) Written;
       mkRun t0915 (CmdTasks None None (Some by_started_at) (Some "milk"))
         Written]
      (empty_store t0900) = Ok (w', out) /\
    sound (collection w') = true.
Proof.
  apply (session_completes_when_writes_succeed _ (empty_store t0900));
    reflexivity.
Defined.

(** When the write of a run fails.  A creation (on a collection without a
    null id), a deletion of an id that is present and an edit of an id that
    is present end the program with an uncaught [AttributeError]: [main]
    catches [ValueError] only.  A status transition of a positive id that
    is present does not end the program: [update_status] catches the
    [AttributeError], prints the line about malformed task data and
    returns [False].  A deletion of an id that is not present tries no
    write and runs as ever. *)
Theorem failed_write_ends_run (remains : file_state) (w : world) :
  (forall ttl dsc tgs,
     ~ In None (ids w) ->
     main_dispatch_io (Failed remains) (CmdNewTask ttl dsc tgs) w =
       Raise AttributeError) /\
  (forall task_id,
     In (Some task_id) (ids w) ->
     main_dispatch_io (Failed remains) (CmdDelete task_id) w =
       Raise AttributeError) /\
  (forall task_id ttl dsc,
     In (Some task_id) (ids w) ->
     main_dispatch_io (Failed remains) (CmdUpdateTask task_id ttl dsc) w =
       Raise AttributeError) /\
  (forall task_id action,
     0 < task_id ->
     In (Some task_id) (ids w) ->
     action <> "view" ->
     update_status_io (Failed remains) task_id action w =
       (RBool false,
        print (MsgMalformed task_id) (failed_write remains (after_load w))) /\
     main_dispatch_io (Failed remains) (CmdTask task_id action) w =
       Ok (print (MsgMalformed task_id) (failed_write remains (after_load w)),
           [])) /\
  (forall task_id,
     ~ In (Some task_id) (ids w) ->
     main_dispatch_io (Failed remains) (CmdDelete task_id) w =
       main_dispatch (CmdDelete task_id) w).
Proof.
  split; [|split; [|split; [|split]]].
  - intros ttl dsc tgs Hnin. simpl. rewrite new_task_io_failed.
    destruct (new_task_integers ttl dsc tgs w Hnin) as (n & -> & _).
    reflexivity.
  - intros task_id Hin. simpl. unfold delete_task_io.
    rewrite load_tasks_eta.
    destruct (find_index_some _ _ Hin) as (i & ->). reflexivity.
  - intros task_id ttl dsc Hin. simpl. unfold update_task_io.
    rewrite load_tasks_eta.
    destruct (edit_first task_id ttl dsc (collection w)) as [l'|] eqn:E;
      [reflexivity|].
    apply edit_first_none in E. contradiction.
  - intros task_id action Hpos Hin Hview.
    assert (E : update_status_io (Failed remains) task_id action w =
                (RBool false,
                 print (MsgMalformed task_id)
                   (failed_write remains (after_load w)))).
    { unfold update_status_io.
      replace (task_id <=? 0) with false
        by (symmetry; apply Z.leb_gt; exact Hpos).
      rewrite load_tasks_eta.
      destruct (update_first task_id action (clock (after_load w))
                  (collection w)) as [l'|] eqn:E; [reflexivity|].
      exfalso. clear - Hin E. unfold ids in Hin.
      induction (collection w) as [|t l IH]; simpl in *; [contradiction|].
      destruct (id_is task_id t) eqn:Et; [discriminate|].
      apply id_is_false in Et.
      destruct (update_first task_id action (clock (after_load w)) l);
        [discriminate|].
      destruct Hin as [H|H]; [contradiction | exact (IH H eq_refl)]. }
    split; [exact E|]. simpl.
    apply String.eqb_neq in Hview. rewrite Hview, E. reflexivity.
  - intros task_id Hnin. simpl. unfold delete_task_io, delete_task.
    rewrite load_tasks_eta. apply find_index_none in Hnin. rewrite Hnin.
    reflexivity.
Qed.

Lemma failed_write_ends_run_witness :
  main_dispatch_io (Failed (file two_tasks)) (CmdDelete 1) two_tasks =
    Raise AttributeError /\
  fst (update_status_io (Failed (file two_tasks)) 1 "start" two_tasks) =
    RBool false.
Proof.
  pose proof (failed_write_ends_run (file two_tasks) two_tasks)
    as (_ & Hdel & _ & Hst & _).
  assert (Hin : In (Some 1) (ids two_tasks)) by (vm_compute; auto).
  split.
  - exact (Hdel 1 Hin).
  - destruct (Hst 1 "start" ltac:(lia) Hin ltac:(discriminate)) as [E _].
    rewrite E. reflexivity.
Defined.

(** An edit of an id that no task has does not end the program: [main]
    catches the [ValueError] and prints it, and the file has not been
    written. *)
Theorem main_reports_missing_edit (task_id : Z) (ttl dsc : option string)
    (w : world) :
  ~ In (Some task_id) (ids w) ->
  main_dispatch (CmdUpdateTask task_id ttl dsc) w =
    Ok (after_load w, [ShownError ValueError]) /\
  file (after_load w) = file w /\
  writes (after_load w) = writes w.
Proof.
  intros Hnin. simpl. rewrite update_task_unfold.
  apply (edit_first_none task_id ttl dsc) in Hnin. rewrite Hnin.
  autorewrite with store. repeat split.
Qed.

Lemma main_reports_missing_edit_witness :
  main_dispatch (CmdUpdateTask 9 (Some "x") None) two_tasks =
    Ok (after_load two_tasks, [ShownError ValueError]).
Proof.
  apply (main_reports_missing_edit 9 (Some "x") None two_tasks).
  vm_compute. intros [H|[H|[]]]; discriminate.
Defined.

(** Start, then finish.  On the first task with a given positive id, a
    start at one clock reading followed by a finish at a later one leaves
    the task done, with the first reading as [started_at] and the second as
    [finished_at]; the tasks around it are as they were. *)
Theorem start_then_finish (task_id : Z) (t1 t2 : string) (w : world)
    (l1 l2 : list Task) (t : Task) :
  0 < task_id ->
  collection w = l1 ++ t :: l2 ->
  id t = Some task_id ->
  (forall u, In u l1 -> id u <> Some task_id) ->
  let w1 := snd (update_status task_id "start" (set_clock t1 w)) in
  let w2 := snd (update_status task_id "finish" (set_clock t2 w1)) in
  exists t',
    collection w2 = l1 ++ t' :: l2 /\
    status t' = Some "done" /\
    started_at t' = Some t1 /\
    finished_at t' = Some t2 /\
    id t' = id t /\ title t' = title t /\ desc t' = desc t /\
    tags t' = tags t /\ created_at t' = created_at t.
Proof.
  intros Hpos Hc Hid Hfirst w1 w2.
  assert (Hc0 : collection (set_clock t1 w) = l1 ++ t :: l2)
    by (rewrite collection_set_clock; exact Hc).
  assert (E1 : collection w1 =
               l1 ++ apply_action "start" t1 t :: l2).
  { unfold w1.
    rewrite (update_status_found _ _ Hpos "start" _ _ _ Hc0 Hid Hfirst).
    simpl. rewrite collection_save. reflexivity. }
  assert (Hc1 : collection (set_clock t2 w1) =
                l1 ++ apply_action "start" t1 t :: l2)
    by (rewrite collection_set_clock; exact E1).
  assert (Hid1 : id (apply_action "start" t1 t) = Some task_id) by exact Hid.
  exists (apply_action "finish" t2 (apply_action "start" t1 t)).
  split; [|repeat split].
  unfold w2.
  rewrite (update_status_found _ _ Hpos "finish" _ _ _ Hc1 Hid1 Hfirst).
  simpl. rewrite collection_save. reflexivity.
Qed.

Lemma start_then_finish_witness :
  exists t',
    collection
      (snd (update_status 1 "finish"
              (set_clock t0910
                 (snd (update_status 1 "start" (set_clock t0905 two_tasks))))))
    = [] ++ t' :: [created "Write report" "Q3 summary" ["work"] t0905 2] /\
    status t' = Some "done" /\
    started_at t' = Some t0905 /\
    finished_at t' = Some t0910.
Proof.
  destruct (start_then_finish 1 t0905 t0910 two_tasks
              [] [created "Write report" "Q3 summary" ["work"] t0905 2]
              (created "Buy milk" "2% milk" ["errand"] t0900 1))
    as (t' & Hc & Hs & Hsa & Hfa & _).
  - lia.
  - reflexivity.
  - reflexivity.
  - intros u [].
  - exists t'. auto.
Defined.
